(** * A reminder scheduler: parser, record store, timer table, fire path

    Shallow embedding of the reminder module of the WhatsApp companion
    bot ([initializeReminderSystem], [scheduleReminder],
    [sendReminderNotification], [markReminderAsCompleted],
    [createReminder], [listReminders], [deleteReminder],
    [parseTimeString], [parseReminderCommand]).

    Conventions of the embedding.
    - A JavaScript [Date] is its time value: a [Z], milliseconds since
      the epoch. The ISO string kept in [reminders.json] is identified
      with the instant it denotes ([toISOString] followed by [new Date]
      is the identity on valid time values). Time values are taken in
      the representable range; [TimeClip] and [NaN] dates are outside
      the model, and numbers are integers below 2^53.
    - The host's zone is the function [LocalTZA] of the language: the
      offset of local time from UTC at an instant, and the offset the
      host gives a local time. A number stands for the zone at that
      fixed offset.
    - Strings are byte strings; the character classes of the regular
      expressions are their ASCII parts.
    - One call reads one clock value [now]: the few [new Date()] and
      [Date.now()] of a call chain fall in the same millisecond. Under
      that reading the library's own test of a one-shot date
      (not before the clock) follows from the guard of
      [scheduleReminder].
    - File operations on [reminders.json] succeed. The file exists once
      the process has started: [initializeReminderSystem] creates it
      when it is missing, and the other functions run after it.
    - The keys of [reminders.json], user ids and reminder ids, are not
      names of properties a plain object inherits ([constructor],
      [toString] and the like): under such a name the source's test
      [reminders[userId][reminderId]] finds a built-in of the host where
      the file has no entry. *)

From Stdlib Require Import ZArith Lia Ascii String.
From stdpp Require Import gmap strings list fin_maps pretty sorting.

Local Open Scope Z_scope.

(** ** Date arithmetic of the host (ECMAScript, "Time Values and Time Range")

    The functions below are the abstract operations the [Date] methods of
    the source are defined by. *)
Module JSDate.

Definition msPerDay : Z := 86400000.
Definition msPerHour : Z := 3600000.
Definition msPerMinute : Z := 60000.
Definition msPerSecond : Z := 1000.

Definition Day (t : Z) : Z := t / msPerDay.
Definition TimeWithinDay (t : Z) : Z := t mod msPerDay.

Definition DaysInYear (y : Z) : Z :=
  if negb (y mod 4 =? 0) then 365
  else if negb (y mod 100 =? 0) then 366
  else if negb (y mod 400 =? 0) then 365
  else 366.

Definition DayFromYear (y : Z) : Z :=
  365 * (y - 1970) + (y - 1969) / 4 - (y - 1901) / 100 + (y - 1601) / 400.

(** [YearFromTime] is the largest year [y] with [TimeFromYear y <= t],
    that is, with [DayFromYear y <= Day t]. [YearFromDay d] computes the
    largest year that starts on or before day [d]: an estimate from the
    mean length of a year, corrected by at most one ([YearFromDay_largest]
    below shows it is that year). *)
Definition YearFromDay (d : Z) : Z :=
  let y := 1970 + (d * 400) / 146097 in
  if d <? DayFromYear y then y - 1
  else if DayFromYear (y + 1) <=? d then y + 1
  else y.

Definition YearFromTime (t : Z) : Z := YearFromDay (Day t).

Definition InLeapYear (t : Z) : Z :=
  if DaysInYear (YearFromTime t) =? 365 then 0 else 1.

Definition DayWithinYear (t : Z) : Z := Day t - DayFromYear (YearFromTime t).

Definition MonthFromTime (t : Z) : Z :=
  let d := DayWithinYear t in
  let leap := InLeapYear t in
  if d <? 31 then 0
  else if d <? 59 + leap then 1
  else if d <? 90 + leap then 2
  else if d <? 120 + leap then 3
  else if d <? 151 + leap then 4
  else if d <? 181 + leap then 5
  else if d <? 212 + leap then 6
  else if d <? 243 + leap then 7
  else if d <? 273 + leap then 8
  else if d <? 304 + leap then 9
  else if d <? 334 + leap then 10
  else 11.

(** Days of the year before month [m] (0-based), [leap] being 0 or 1. *)
Definition DaysBeforeMonth (m leap : Z) : Z :=
  match m with
  | 0 => 0
  | 1 => 31
  | 2 => 59 + leap
  | 3 => 90 + leap
  | 4 => 120 + leap
  | 5 => 151 + leap
  | 6 => 181 + leap
  | 7 => 212 + leap
  | 8 => 243 + leap
  | 9 => 273 + leap
  | 10 => 304 + leap
  | _ => 334 + leap
  end.

Definition DateFromTime (t : Z) : Z :=
  DayWithinYear t - DaysBeforeMonth (MonthFromTime t) (InLeapYear t) + 1.

Definition MakeTime (hour min sec ms : Z) : Z :=
  hour * msPerHour + min * msPerMinute + sec * msPerSecond + ms.

(** [MakeDay]: the day number of the first of month [mn] of year [ym],
    plus [date - 1]; months and dates out of range carry over. *)
Definition MakeDay (year month date : Z) : Z :=
  let ym := year + month / 12 in
  let mn := month mod 12 in
  let leap := if DaysInYear ym =? 365 then 0 else 1 in
  DayFromYear ym + DaysBeforeMonth mn leap + date - 1.

Definition MakeDate (day time : Z) : Z := day * msPerDay + time.

(** The zone of the host, [LocalTZA(t, isUTC)]: the offset of local time
    from UTC in milliseconds, at the instant [t] when [isUTC] holds, and
    for the local time [t] otherwise (where a change of offset leaves a
    local time out or has it twice, the host picks one offset). *)
Definition Zone : Type := Z → bool → Z.

(** A zone without changes of offset. *)
Definition fixedZone (offset : Z) : Zone := λ _ _, offset.
Coercion fixedZone : Z >-> Zone.

Section Host.
Variable LocalTZA : Zone.

Definition LocalTime (t : Z) : Z := t + LocalTZA t true.
Definition UTC (t : Z) : Z := t - LocalTZA t false.

Definition getFullYear (d : Z) : Z := YearFromTime (LocalTime d).
Definition getMonth (d : Z) : Z := MonthFromTime (LocalTime d).
Definition getDate (d : Z) : Z := DateFromTime (LocalTime d).

(** [d.setDate(dt)], as the new time value of [d]. *)
Definition setDate (d dt : Z) : Z :=
  let t := LocalTime d in
  UTC (MakeDate (MakeDay (YearFromTime t) (MonthFromTime t) dt)
                (TimeWithinDay t)).

(** [d.setMonth(m)]: the day of the month is kept as a number. *)
Definition setMonth (d m : Z) : Z :=
  let t := LocalTime d in
  UTC (MakeDate (MakeDay (YearFromTime t) m (DateFromTime t))
                (TimeWithinDay t)).

(** [d.setHours(h, m, s, ms)]. *)
Definition setHours (d h m s ms : Z) : Z :=
  let t := LocalTime d in
  UTC (MakeDate (Day t) (MakeTime h m s ms)).

(** [new Date(year, month, day, hours, minutes, seconds, ms)]. *)
Definition newDate (year month day hours minutes seconds ms : Z) : Z :=
  let yr := if (0 <=? year) && (year <=? 99) then 1900 + year else year in
  UTC (MakeDate (MakeDay yr month day) (MakeTime hours minutes seconds ms)).
End Host.

End JSDate.
Import JSDate.

(** ** Strings of the host: character classes, [trim], [toLowerCase],
    [parseInt] *)
Module JSString.

Definition code (c : ascii) : N := N_of_ascii c.

(** [\s], ASCII part: TAB, LF, VT, FF, CR, SP. *)
Definition isWhiteSpace (c : ascii) : bool :=
  let n := code c in ((9 <=? n) && (n <=? 13) || (n =? 32))%N.

(** [\d]. *)
Definition isDigit (c : ascii) : bool :=
  let n := code c in ((48 <=? n) && (n <=? 57))%N.

(** [.]: any character but a line terminator. *)
Definition isNotLineTerminator (c : ascii) : bool :=
  let n := code c in negb ((n =? 10) || (n =? 13))%N.

Definition toUpperChar (c : ascii) : ascii :=
  let n := code c in
  if ((97 <=? n) && (n <=? 122))%N then ascii_of_N (n - 32) else c.

Definition toLowerChar (c : ascii) : ascii :=
  let n := code c in
  if ((65 <=? n) && (n <=? 90))%N then ascii_of_N (n + 32) else c.

Definition chars (s : string) : list ascii := list_ascii_of_string s.
Definition str (l : list ascii) : string := string_of_list_ascii l.

Definition toLowerCase (s : string) : string := str (toLowerChar <$> chars s).

Fixpoint dropWhile {A} (p : A → bool) (l : list A) : list A :=
  match l with
  | [] => []
  | a :: l' => if p a then dropWhile p l' else l
  end.

(** [s.trim()]. *)
Definition trim (s : string) : string :=
  str (rev (dropWhile isWhiteSpace (rev (dropWhile isWhiteSpace (chars s))))).

(** [parseInt] on a run of decimal digits (the only arguments it gets in
    the source are [\d+] and [\d{n}] captures): the value of the leading
    digits. *)
Fixpoint parseDigits (acc : Z) (l : list ascii) : Z :=
  match l with
  | [] => acc
  | c :: l' =>
      if isDigit c then parseDigits (10 * acc + Z.of_N (code c - 48)) l'
      else acc
  end.

Definition parseInt (s : string) : Z := parseDigits 0 (chars s).

End JSString.
Import JSString.

(** ** Regular expressions

    A backtracking matcher in the continuation-passing form of the
    language definition: alternatives are tried in order, a quantifier
    is greedy or lazy, an iteration that matches the empty string under
    a met minimum fails, capturing groups inside a quantified atom are
    reset at each iteration. The repetition is driven by a counter
    started above the number of iterations an input allows: each one
    uses up a required repetition or at least one character. *)
Module RegExp.

Inductive regex : Type :=
| Empty
| Chr (c : ascii)
| Class (p : ascii → bool)
| Seq (r1 r2 : regex)
| Alt (r1 r2 : regex)
| Rep (min : nat) (max : option nat) (greedy : bool) (r : regex)
| Group (i : nat) (r : regex)
| Bol
| Eol.

(** A literal run of characters. *)
Definition Lit (s : string) : regex := foldr (λ c r, Seq (Chr c) r) Empty (chars s).

Definition Plus (r : regex) : regex := Rep 1 None true r.
Definition Star (r : regex) : regex := Rep 0 None true r.
Definition LazyStar (r : regex) : regex := Rep 0 None false r.
Definition Opt (r : regex) : regex := Rep 0 (Some 1%nat) true r.

(** Indices of the capturing groups inside a regex. *)
Fixpoint groupsOf (r : regex) : list nat :=
  match r with
  | Seq r1 r2 | Alt r1 r2 => groupsOf r1 ++ groupsOf r2
  | Rep _ _ _ r1 => groupsOf r1
  | Group i r1 => i :: groupsOf r1
  | _ => []
  end.

(** Matcher state: the index reached, the input left from there, the
    captures so far. *)
Record State := mkState {
  endIndex : nat;
  rest : list ascii;
  captures : list (option string)
}.

(** What a matcher returns: a final state, failure, or the sign that
    the repetition counter ran out ([matcher_never_exhausted] below shows
    it does not). *)
Inductive MatchOutcome : Type :=
| Matched (y : State)
| Failure
| Exhausted.

Definition Continuation := State → MatchOutcome.

Definition step (x : State) (p : ascii → bool) (c : Continuation) : MatchOutcome :=
  match rest x with
  | a :: s' => if p a then c (mkState (S (endIndex x)) s' (captures x)) else Failure
  | [] => Failure
  end.

Definition clearCaptures (gs : list nat) (x : State) : State :=
  mkState (endIndex x) (rest x) (foldr (λ i cs, <[i := None]> cs) (captures x) gs).

(** Backtracking: the second choice is tried when the first fails. *)
Definition orElse (a : MatchOutcome) (b : unit → MatchOutcome) : MatchOutcome :=
  match a with
  | Failure => b tt
  | _ => a
  end.

(** The matcher of a quantified atom: [m] is the atom's matcher, [gs] the
    capturing groups inside the atom, [fuel] the counter. *)
Fixpoint RepeatMatcher (m : State → Continuation → MatchOutcome) (gs : list nat)
    (greedy : bool) (c : Continuation) (fuel : nat) (min : nat) (max : option nat)
    (x : State) {struct fuel} : MatchOutcome :=
  match max with
  | Some O => c x
  | _ =>
    match fuel with
    | O => Exhausted
    | S fuel' =>
      let d : Continuation := λ y,
        if Nat.eqb min 0 && Nat.eqb (endIndex y) (endIndex x) then Failure
        else RepeatMatcher m gs greedy c fuel' (Nat.pred min) (Nat.pred <$> max) y in
      let xr := clearCaptures gs x in
      if negb (Nat.eqb min 0) then m xr d
      else if negb greedy then orElse (c x) (λ _, m xr d)
      else orElse (m xr d) (λ _, c x)
    end
  end.

(** The matcher of a regex, in the continuation-passing form in which the
    language defines it. [icase] is the [i] flag. *)
Fixpoint matcher (icase : bool) (r : regex) (x : State) (c : Continuation)
  {struct r} : MatchOutcome :=
  match r with
  | Empty => c x
  | Chr ch =>
      step x (λ a, if icase then bool_decide (toUpperChar a = toUpperChar ch)
                   else bool_decide (a = ch)) c
  | Class p => step x p c
  | Seq r1 r2 => matcher icase r1 x (λ y, matcher icase r2 y c)
  | Alt r1 r2 => orElse (matcher icase r1 x c) (λ _, matcher icase r2 x c)
  | Rep min max greedy r1 =>
      RepeatMatcher (matcher icase r1) (groupsOf r1) greedy c
                    (min + length (rest x) + 1) min max x
  | Group i r1 =>
      matcher icase r1 x (λ y,
        let s := str (take (endIndex y - endIndex x) (rest x)) in
        c (mkState (endIndex y) (rest y) (<[i := Some s]> (captures y))))
  | Bol => if Nat.eqb (endIndex x) 0 then c x else Failure
  | Eol => match rest x with [] => c x | _ => Failure end
  end.

(** A compiled pattern: the regex, its number of capturing groups, the
    [i] flag. *)
Record Pattern := mkPattern { body : regex; nGroups : nat; ignoreCase : bool }.

Record MatchResult := mkMatch {
  index : nat;          (* where the match starts *)
  lastIndex : nat;      (* where it ends *)
  groups : list (option string)   (* [0] is the matched text *)
}.

(** Try the start positions from left to right. *)
Fixpoint execFrom (p : Pattern) (i : nat) (s : list ascii) : option MatchResult :=
  let x := mkState i s (replicate (S (nGroups p)) None) in
  match matcher (ignoreCase p) (body p) x Matched with
  | Matched y =>
      Some (mkMatch i (endIndex y)
              (<[0%nat := Some (str (take (endIndex y - i) s))]> (captures y)))
  | Failure =>
      match s with
      | [] => None
      | _ :: s' => execFrom p (S i) s'
      end
  | Exhausted => None
  end.

(** [s.match(p)] for a pattern without the [g] flag. *)
Definition exec (p : Pattern) (s : string) : option MatchResult :=
  execFrom p 0 (chars s).

(** [p.test(s)]. *)
Definition test (p : Pattern) (s : string) : bool :=
  match exec p s with Some _ => true | None => false end.

(** [s.replace(p, '')]: the first match is cut out. *)
Definition replaceEmpty (p : Pattern) (s : string) : string :=
  match exec p s with
  | Some m => str (take (index m) (chars s) ++ drop (lastIndex m) (chars s))
  | None => s
  end.

(** [m[i]], [None] when the group did not take part in the match. *)
Definition group (m : MatchResult) (i : nat) : option string :=
  mjoin (groups m !! i).

End RegExp.
Import RegExp.


(** ** The time expression parser and the command parser *)
Module Parser.

Local Open Scope string_scope.
Local Open Scope Z_scope.

Definition ws : regex := Class isWhiteSpace.
Definition dg : regex := Class isDigit.
Definition dot : regex := Class isNotLineTerminator.

Definition Cat (l : list regex) : regex := foldr Seq Empty l.

Fixpoint Alts (l : list regex) : regex :=
  match l with
  | [] => Empty
  | [r] => r
  | r :: l' => Alt r (Alts l')
  end.

(** [/in\s+(\d+)\s+(minute|minutes|hour|hours|day|days)/i] *)
Definition inPattern : Pattern :=
  mkPattern
    (Cat [Lit "in"; Plus ws; Group 1 (Plus dg); Plus ws;
          Group 2 (Alts [Lit "minute"; Lit "minutes"; Lit "hour";
                         Lit "hours"; Lit "day"; Lit "days"])])
    2 true.

(** [/tomorrow\s+at\s+(\d+)(?::(\d+))?\s*(am|pm)?/i] *)
Definition tomorrowPattern : Pattern :=
  mkPattern
    (Cat [Lit "tomorrow"; Plus ws; Lit "at"; Plus ws; Group 1 (Plus dg);
          Opt (Cat [Chr ":"; Group 2 (Plus dg)]); Star ws;
          Opt (Group 3 (Alts [Lit "am"; Lit "pm"]))])
    3 true.

(** [/today\s+at\s+(\d+)(?::(\d+))?\s*(am|pm)?/i] *)
Definition todayPattern : Pattern :=
  mkPattern
    (Cat [Lit "today"; Plus ws; Lit "at"; Plus ws; Group 1 (Plus dg);
          Opt (Cat [Chr ":"; Group 2 (Plus dg)]); Star ws;
          Opt (Group 3 (Alts [Lit "am"; Lit "pm"]))])
    3 true.

(** [/(\d{1,2})\/(\d{1,2})(?:\/(\d{4}))?\s+at\s+(\d+)(?::(\d+))?\s*(am|pm)?/i] *)
Definition dateTimePattern : Pattern :=
  mkPattern
    (Cat [Group 1 (Rep 1 (Some 2%nat) true dg); Chr "/";
          Group 2 (Rep 1 (Some 2%nat) true dg);
          Opt (Cat [Chr "/"; Group 3 (Rep 4 (Some 4%nat) true dg)]);
          Plus ws; Lit "at"; Plus ws; Group 4 (Plus dg);
          Opt (Cat [Chr ":"; Group 5 (Plus dg)]); Star ws;
          Opt (Group 6 (Alts [Lit "am"; Lit "pm"]))])
    6 true.

(** [/^\/remind\s+/i] *)
Definition remindPrefix : Pattern :=
  mkPattern (Cat [Bol; Lit "/remind"; Plus ws]) 0 true.

(** [/\s+daily$/i], [/\s+every\s+day$/i] and the like, in the order of
    the source. *)
Definition recurringPatterns : list (Pattern * string) :=
  [ (mkPattern (Cat [Plus ws; Lit "daily"; Eol]) 0 true, "daily");
    (mkPattern (Cat [Plus ws; Lit "every"; Plus ws; Lit "day"; Eol]) 0 true, "daily");
    (mkPattern (Cat [Plus ws; Lit "weekly"; Eol]) 0 true, "weekly");
    (mkPattern (Cat [Plus ws; Lit "every"; Plus ws; Lit "week"; Eol]) 0 true, "weekly");
    (mkPattern (Cat [Plus ws; Lit "monthly"; Eol]) 0 true, "monthly");
    (mkPattern (Cat [Plus ws; Lit "every"; Plus ws; Lit "month"; Eol]) 0 true, "monthly") ].

(** [/^(.*?)\s+(?:to|about)\s+(R)$/i], [R] being the greedy [.*]. *)
Definition toPattern : Pattern :=
  mkPattern
    (Cat [Bol; Group 1 (LazyStar dot); Plus ws; Alts [Lit "to"; Lit "about"];
          Plus ws; Group 2 (Star dot); Eol])
    2 true.

(** [/^(.*?)\s+(?:at|on)\s+(R)$/i], [R] being the greedy [.*]. *)
Definition atPattern : Pattern :=
  mkPattern
    (Cat [Bol; Group 1 (LazyStar dot); Plus ws; Alts [Lit "at"; Lit "on"];
          Plus ws; Group 2 (Star dot); Eol])
    2 true.

(** The text of a group that took part in the match. *)
Definition groupText (m : MatchResult) (i : nat) : string :=
  default "" (group m i).

(** [m[i] ? ... : ...]: a group that is undefined or empty is falsy. *)
Definition groupTruthy (m : MatchResult) (i : nat) : bool :=
  match group m i with
  | Some s => negb (bool_decide (s = ""))
  | None => false
  end.

(** The block each of the three clock grammars repeats: hours from group
    [h], minutes from group [h + 1] (0 when absent), the am/pm mark from
    group [h + 2], and the 12-hour adjustment. *)
Definition clockOf (m : MatchResult) (h : nat) : Z * Z :=
  let hours := parseInt (groupText m h) in
  let minutes := if groupTruthy m (h + 1)%nat
                 then parseInt (groupText m (h + 1)%nat) else 0 in
  let ampm := if groupTruthy m (h + 2)%nat
              then Some (toLowerCase (groupText m (h + 2)%nat)) else None in
  let hours :=
    if bool_decide (ampm = Some "pm") && (hours <? 12) then hours + 12
    else if bool_decide (ampm = Some "am") && (hours =? 12) then 0
    else hours in
  (hours, minutes).

Section WithHost.
(** The host's zone and its [new Date(string)]; [None] is an invalid
    date. *)
Variable LocalTZA : Zone.
Variable DateParse : string → option Z.

(** The [in X unit] branch; [None] when it does not return. *)
Definition inBranch (now : Z) (timeString : string) : option Z :=
  match exec inPattern timeString with
  | Some inMatch =>
      let amount := parseInt (groupText inMatch 1) in
      let unit := toLowerCase (groupText inMatch 2) in
      if bool_decide (unit = "minute") || bool_decide (unit = "minutes")
      then Some (now + amount * 60 * 1000)
      else if bool_decide (unit = "hour") || bool_decide (unit = "hours")
      then Some (now + amount * 60 * 60 * 1000)
      else if bool_decide (unit = "day") || bool_decide (unit = "days")
      then Some (now + amount * 24 * 60 * 60 * 1000)
      else None
  | None => None
  end.

(** [parseTimeString], with the clock value [now] it reads first. [None]
    is [null]. *)
Definition parseTimeString (now : Z) (timeString : string) : option Z :=
  match inBranch now timeString with
  | Some d => Some d
  | None =>
  match exec tomorrowPattern timeString with
  | Some tomorrowMatch =>
      let tomorrow := setDate LocalTZA now (getDate LocalTZA now + 1) in
      let '(hours, minutes) := clockOf tomorrowMatch 1 in
      Some (setHours LocalTZA tomorrow hours minutes 0 0)
  | None =>
  match exec todayPattern timeString with
  | Some todayMatch =>
      let '(hours, minutes) := clockOf todayMatch 1 in
      let today := setHours LocalTZA now hours minutes 0 0 in
      if today <=? now then None else Some today
  | None =>
  match exec dateTimePattern timeString with
  | Some dateTimeMatch =>
      let month := parseInt (groupText dateTimeMatch 1) - 1 in
      let day := parseInt (groupText dateTimeMatch 2) in
      let year := if groupTruthy dateTimeMatch 3
                  then parseInt (groupText dateTimeMatch 3)
                  else getFullYear LocalTZA now in
      let '(hours, minutes) := clockOf dateTimeMatch 4 in
      let date := newDate LocalTZA year month day hours minutes 0 0 in
      if date <=? now then None else Some date
  | None => DateParse timeString
  end end end end.

(** The object [parseReminderCommand] returns. *)
Record ParsedReminder := mkParsed {
  parsedText : string;
  parsedTime : Z;
  parsedRecurring : option string
}.

Definition parseReminderCommand (now : Z) (text : string) : option ParsedReminder :=
  let content := trim (replaceEmpty remindPrefix text) in
  let '(recurring, cleanContent) :=
    match List.find (λ pt, test pt.1 content) recurringPatterns with
    | Some (pattern, type) => (Some type, trim (replaceEmpty pattern content))
    | None => (None, content)
    end in
  let viaTo :=
    match exec toPattern cleanContent with
    | Some toMatch =>
        let timeString := trim (groupText toMatch 1) in
        let reminderText := trim (groupText toMatch 2) in
        match parseTimeString now timeString with
        | Some time => Some (mkParsed reminderText time recurring)
        | None => None
        end
    | None => None
    end in
  match viaTo with
  | Some r => Some r
  | None =>
      match exec atPattern cleanContent with
      | Some atMatch =>
          let reminderText := trim (groupText atMatch 1) in
          let timeString := trim (groupText atMatch 2) in
          match parseTimeString now timeString with
          | Some time => Some (mkParsed reminderText time recurring)
          | None => None
          end
      | None => None
      end
  end.

End WithHost.

(** A model of the part of [new Date(string)] the language fixes: the
    forms [YYYY-MM-DD] and [YYYY-MM-DDTHH:mm:ss.sssZ] of the date time
    string format, read as UTC; hour 24 is the end of the day, with
    minutes, seconds and milliseconds zero. What a host does with other
    strings is its own choice; this model reads none of them. *)
Definition isoPattern : Pattern :=
  mkPattern
    (Cat [Bol; Group 1 (Rep 4 (Some 4%nat) true dg); Chr "-";
          Group 2 (Rep 2 (Some 2%nat) true dg); Chr "-";
          Group 3 (Rep 2 (Some 2%nat) true dg);
          Opt (Cat [Chr "T"; Group 4 (Rep 2 (Some 2%nat) true dg); Chr ":";
                    Group 5 (Rep 2 (Some 2%nat) true dg); Chr ":";
                    Group 6 (Rep 2 (Some 2%nat) true dg); Chr ".";
                    Group 7 (Rep 3 (Some 3%nat) true dg); Chr "Z"]);
          Eol])
    7 false.

Definition isoDateParse (s : string) : option Z :=
  match exec isoPattern s with
  | Some m =>
      let n i := parseInt (groupText m i) in
      let month := n 2%nat in
      let day := n 3%nat in
      if (1 <=? month) && (month <=? 12) && (1 <=? day) && (day <=? 31)
         && (n 4%nat <=? 24) && (n 5%nat <=? 59) && (n 6%nat <=? 59)
         && ((n 4%nat <? 24)
             || ((n 5%nat =? 0) && (n 6%nat =? 0) && (n 7%nat =? 0)))
      then Some (MakeDate (MakeDay (n 1%nat) (month - 1) day)
                          (MakeTime (n 4%nat) (n 5%nat) (n 6%nat) (n 7%nat)))
      else None
  | None => None
  end.

End Parser.
Import Parser.

(** ** The record store, the timer table and the fire path *)
Module Reminders.

Local Open Scope string_scope.
Local Open Scope Z_scope.

(** A record of [reminders.json]. [recurring] is [null] ([None]) or a
    string. *)
Record Reminder := mkReminder {
  text : string;
  time : Z;
  created : Z;
  completed : bool;
  recurring : option string
}.

Definition withTime (r : Reminder) (t : Z) : Reminder :=
  mkReminder (text r) t (created r) (completed r) (recurring r).

Definition withCompleted (r : Reminder) (b : bool) : Reminder :=
  mkReminder (text r) (time r) (created r) b (recurring r).

(** The fields of a user file the notification reads; [None] is a missing
    field. *)
Record UserData := mkUserData {
  userName : option string;
  companionName : option string
}.

(** A job object of the scheduling library. The callback the source
    passes is a closure over [userId], [reminderId] and the [reminder]
    object given to [scheduleReminder]: the job keeps those. [pending]
    says that its one invocation is still to come. *)
Record Job := mkJob {
  jobDate : Z;
  jobUserId : string;
  jobReminderId : string;
  jobReminder : Reminder;
  pending : bool
}.

Definition cancelled (j : Job) : Job :=
  mkJob (jobDate j) (jobUserId j) (jobReminderId j) (jobReminder j) false.

(** Lines of the console, by the call that writes them. *)
Inductive LogEntry : Type :=
| LogInitializing
| LogInitialized
| LogSkipPast (reminderId userId : string)
| LogScheduled (reminderId userId : string) (reminderTime : Z)
| LogUserNotFound (userId : string)
| LogSent (userId reminderId : string)
| ErrInitializing
| ErrScheduling (reminderId userId : string)
| ErrSending (userId reminderId : string)
| ErrMarking (reminderId userId : string)
| ErrCreating (userId : string).

(** The process and what it touches: the clock, [reminders.json], the
    user files, the transport ([sockUp]: [sock.sendMessage] resolves) and
    the messages it has sent, the job objects of the scheduling library
    (a job's handle is its position), the module's [scheduledReminders]
    map from user and reminder id to a job handle, and the console. *)
Record World := mkWorld {
  clock : Z;
  remindersFile : gmap string (gmap string Reminder);
  userFiles : gmap string UserData;
  sockUp : bool;
  outbox : list (string * string);
  jobs : list Job;
  scheduledReminders : gmap string (gmap string nat);
  console : list LogEntry
}.

Definition setRemindersFile (f : gmap string (gmap string Reminder)) (w : World) : World :=
  mkWorld (clock w) f (userFiles w) (sockUp w) (outbox w) (jobs w)
          (scheduledReminders w) (console w).

Definition setOutbox (o : list (string * string)) (w : World) : World :=
  mkWorld (clock w) (remindersFile w) (userFiles w) (sockUp w) o (jobs w)
          (scheduledReminders w) (console w).

Definition setJobs (js : list Job) (w : World) : World :=
  mkWorld (clock w) (remindersFile w) (userFiles w) (sockUp w) (outbox w) js
          (scheduledReminders w) (console w).

Definition setScheduledReminders (t : gmap string (gmap string nat)) (w : World) : World :=
  mkWorld (clock w) (remindersFile w) (userFiles w) (sockUp w) (outbox w) (jobs w)
          t (console w).

Definition setConsole (c : list LogEntry) (w : World) : World :=
  mkWorld (clock w) (remindersFile w) (userFiles w) (sockUp w) (outbox w) (jobs w)
          (scheduledReminders w) c.

Definition setClock (t : Z) (w : World) : World :=
  mkWorld t (remindersFile w) (userFiles w) (sockUp w) (outbox w) (jobs w)
          (scheduledReminders w) (console w).

(** *** Effects: state passing with exceptions

    A computation ends normally with a value or throws; either way the
    changes it made to the world stay. *)
Inductive Completion (A : Type) : Type :=
| Normal (a : A)
| Thrown.
Arguments Normal {A} a.
Arguments Thrown {A}.

Definition Eff (A : Type) : Type := World → Completion A * World.

Definition ret {A} (a : A) : Eff A := λ w, (Normal a, w).

Definition bind {A B} (m : Eff A) (k : A → Eff B) : Eff B :=
  λ w, match m w with
       | (Normal a, w') => k a w'
       | (Thrown, w') => (Thrown, w')
       end.

Definition throw {A} : Eff A := λ w, (Thrown, w).

(** [try { body } catch (error) { handler }] *)
Definition tryCatch {A} (body handler : Eff A) : Eff A :=
  λ w, match body w with
       | (Normal a, w') => (Normal a, w')
       | (Thrown, w') => handler w'
       end.

(** The world a computation leaves. *)
Definition run {A} (m : Eff A) (w : World) : World := (m w).2.

(** The completion of a computation. *)
Definition result {A} (m : Eff A) (w : World) : Completion A := (m w).1.

Declare Scope eff_scope.
Delimit Scope eff_scope with eff.
Notation "x <~ m ; k" := (bind m (λ x, k))
  (at level 100, m at next level, right associativity) : eff_scope.
Notation "m ;> k" := (bind m (λ _, k))
  (at level 100, right associativity) : eff_scope.
Local Open Scope eff_scope.

Definition update (f : World → World) : Eff unit := λ w, (Normal tt, f w).

(** [console.log] and [console.error]. *)
Definition logE (e : LogEntry) : Eff unit :=
  update (λ w, setConsole (console w ++ [e]) w).

(** [new Date()], [Date.now()]. *)
Definition dateNow : Eff Z := λ w, (Normal (clock w), w).

(** [fs.readJson(REMINDERS_PATH)] and [fs.writeJson(REMINDERS_PATH, _)]. *)
Definition readJson : Eff (gmap string (gmap string Reminder)) :=
  λ w, (Normal (remindersFile w), w).

Definition writeJson (reminders : gmap string (gmap string Reminder)) : Eff unit :=
  update (setRemindersFile reminders).

(** [getUserData(userId)]: the user file, [null] when there is none. *)
Definition getUserData (userId : string) : Eff (option UserData) :=
  λ w, (Normal (userFiles w !! userId), w).

(** [sock.sendMessage(userId, { text: message })]: rejects when the
    transport is down. *)
Definition sendMessage (userId message : string) : Eff unit :=
  λ w, if sockUp w
       then (Normal tt, setOutbox (outbox w ++ [(userId, message)]) w)
       else throw w.

(** [schedule.scheduleJob(date, callback)]: a new job object with one
    invocation pending; the handle returned is its position. *)
Definition scheduleJob (date : Z) (userId reminderId : string) (reminder : Reminder)
  : Eff nat :=
  λ w, (Normal (length (jobs w)),
        setJobs (jobs w ++ [mkJob date userId reminderId reminder true]) w).

(** [job.cancel()] *)
Definition cancelJob (h : nat) : Eff unit :=
  update (λ w, setJobs (alter cancelled h (jobs w)) w).

(** [scheduledReminders.get(userId).get(reminderId)] when both [has]
    tests hold. *)
Definition lookupJob (t : gmap string (gmap string nat)) (userId reminderId : string)
  : option nat :=
  t !! userId ≫= (.!! reminderId).

(** [truthy]: neither [null] nor the empty string. *)
Definition truthy (o : option string) : bool :=
  match o with
  | Some s => negb (bool_decide (s = ""))
  | None => false
  end.

(** [scheduleReminder(sock, userId, reminderId, reminder)] *)
Definition scheduleReminder (userId reminderId : string) (reminder : Reminder) : Eff unit :=
  tryCatch
    (let reminderTime := time reminder in
     now <~ dateNow;
     if reminderTime <? now then
       logE (LogSkipPast reminderId userId)
     else
       job <~ scheduleJob reminderTime userId reminderId reminder;
       update (λ w,
         let t := scheduledReminders w in
         let t := if bool_decide (t !! userId = None) then <[userId := ∅]> t else t in
         setScheduledReminders
           (<[userId := <[reminderId := job]> (default ∅ (t !! userId))]> t) w) ;>
       logE (LogScheduled reminderId userId reminderTime))
    (logE (ErrScheduling reminderId userId)).

Definition newline : string := String (ascii_of_nat 10) "".

(** A template slot: a missing field prints as [undefined]. *)
Definition slot (o : option string) : string := default "undefined" o.

(** The message [sendReminderNotification] builds. *)
Definition notificationText (userData : UserData) (reminder : Reminder) : string :=
  let message := "⏰ *REMINDER* ⏰" +:+ newline +:+ newline in
  let message :=
    if truthy (companionName userData)
    then message +:+ "Hey " +:+ slot (userName userData) +:+ ", it's "
         +:+ slot (companionName userData) +:+ " here! 💫" +:+ newline +:+ newline
    else message in
  let message := message +:+ "You asked me to remind you about:" +:+ newline
                 +:+ "*" +:+ text reminder +:+ "*" in
  if truthy (recurring reminder)
  then message +:+ newline +:+ newline +:+ "This is a recurring reminder ("
       +:+ slot (recurring reminder) +:+ ")."
  else message.

Section WithZone.
Variable LocalTZA : Zone.

(** The [switch (recurring)] of [markReminderAsCompleted]: the next
    time, [None] in the default case. *)
Definition nextTime (recurring : option string) (currentTime : Z) : option Z :=
  if bool_decide (recurring = Some "daily") then
    Some (setDate LocalTZA currentTime (getDate LocalTZA currentTime + 1))
  else if bool_decide (recurring = Some "weekly") then
    Some (setDate LocalTZA currentTime (getDate LocalTZA currentTime + 7))
  else if bool_decide (recurring = Some "monthly") then
    Some (setMonth LocalTZA currentTime (getMonth LocalTZA currentTime + 1))
  else None.

(** [markReminderAsCompleted(userId, reminderId, recurring)] *)
Definition markReminderAsCompleted (userId reminderId : string)
    (recurring : option string) : Eff unit :=
  tryCatch
    (reminders <~ readJson;
     match reminders !! userId with
     | None => ret tt
     | Some userReminders =>
     match userReminders !! reminderId with
     | None => ret tt
     | Some reminder =>
         reminders <~
           (if truthy recurring then
              let currentTime := time reminder in
              match nextTime recurring currentTime with
              | None =>
                  ret (<[userId := <[reminderId := withCompleted reminder true]>
                                     userReminders]> reminders)
              | Some next =>
                  t <~ (λ w, (Normal (scheduledReminders w), w));
                  match lookupJob t userId reminderId with
                  | Some job => cancelJob job
                  | None => ret tt
                  end ;>
                  ret (<[userId := <[reminderId := withTime reminder next]>
                                     userReminders]> reminders)
              end
            else
              let userReminders := delete reminderId userReminders in
              let reminders :=
                if Nat.eqb (size userReminders) 0 then delete userId reminders
                else <[userId := userReminders]> reminders in
              t <~ (λ w, (Normal (scheduledReminders w), w));
              match lookupJob t userId reminderId with
              | Some job =>
                  cancelJob job ;>
                  update (setScheduledReminders
                            (<[userId := delete reminderId (default ∅ (t !! userId))]> t))
              | None => ret tt
              end ;>
              ret reminders);
         writeJson reminders
     end end)
    (logE (ErrMarking reminderId userId)).

(** [sendReminderNotification(sock, userId, reminderId, reminder)] *)
Definition sendReminderNotification (userId reminderId : string) (reminder : Reminder)
  : Eff unit :=
  tryCatch
    (userData <~ getUserData userId;
     match userData with
     | None => logE (LogUserNotFound userId)
     | Some userData =>
         let message := notificationText userData reminder in
         sendMessage userId message ;>
         markReminderAsCompleted userId reminderId (recurring reminder) ;>
         logE (LogSent userId reminderId)
     end)
    (logE (ErrSending userId reminderId)).

(** The scheduling library running a job: when the job's one invocation
    is pending and its date is reached, the invocation is used up and the
    callback, [sendReminderNotification] on the captured arguments, runs. *)
Definition fire (h : nat) : Eff unit :=
  λ w, match jobs w !! h with
       | Some j =>
           if pending j && (jobDate j <=? clock w) then
             (update (λ w, setJobs (alter cancelled h (jobs w)) w) ;>
              sendReminderNotification (jobUserId j) (jobReminderId j) (jobReminder j)) w
           else (Normal tt, w)
       | None => (Normal tt, w)
       end.

End WithZone.

(** [createReminder(sock, userId, text, time, recurring)]: the id, or
    [None] for [null]. *)
Definition createReminder (userId text : string) (time : Z) (recurring : option string)
  : Eff (option string) :=
  tryCatch
    (reminders <~ readJson;
     let reminders :=
       if bool_decide (reminders !! userId = None) then <[userId := ∅]> reminders
       else reminders in
     now <~ dateNow;
     let reminderId := pretty now in
     created <~ dateNow;
     let reminder := mkReminder text time created false recurring in
     let reminders :=
       <[userId := <[reminderId := reminder]> (default ∅ (reminders !! userId))]>
         reminders in
     writeJson reminders ;>
     scheduleReminder userId reminderId reminder ;>
     ret (Some reminderId))
    (logE (ErrCreating userId) ;> ret None).

(** [for (const k in o) body], the keys taken in the order of
    [map_to_list]. The order in which the host visits them (integer-like
    keys ascending, then the others as inserted) shows only in the
    numbering of the job handles and in the console. *)
Definition forIn {A} (o : gmap string A) (body : string → A → Eff unit) : Eff unit :=
  map_fold (λ k v rest, body k v ;> rest) (ret tt) o.

(** [initializeReminderSystem(sock)], [fileFound] being the answer of
    [fs.pathExists(REMINDERS_PATH)]: a start that does not find
    [reminders.json] creates it, holding the empty object, and then
    reads it. *)
Definition initializeReminderSystemAt (fileFound : bool) : Eff unit :=
  logE LogInitializing ;>
  tryCatch
    ((if negb fileFound then writeJson ∅ else ret tt) ;>
     reminders <~ readJson;
     forIn reminders (λ userId userReminders,
       forIn userReminders (λ reminderId reminder,
         now <~ dateNow;
         if completed reminder || (time reminder <? now) then ret tt
         else scheduleReminder userId reminderId reminder)) ;>
     logE LogInitialized)
    (logE ErrInitializing).

(** The start of a process that finds [reminders.json] in place, as
    every start after the first does. *)
Definition initializeReminderSystem : Eff unit := initializeReminderSystemAt true.

(** [deleteReminder(userId, reminderId)]: whether a record was deleted.
    The [catch] clause is reached only when a file operation fails, which
    is outside the model. The user's entry is kept, also when it is left
    empty. The two lookups are those of the file's own keys: ids that
    name an inherited property are outside the model, as the conventions
    say. *)
Definition deleteReminder (userId reminderId : string) : Eff bool :=
  reminders <~ readJson;
  match reminders !! userId with
  | None => ret false
  | Some userReminders =>
  match userReminders !! reminderId with
  | None => ret false
  | Some _ =>
      writeJson (<[userId := delete reminderId userReminders]> reminders) ;>
      t <~ (λ w, (Normal (scheduledReminders w), w));
      match lookupJob t userId reminderId with
      | Some job =>
          cancelJob job ;>
          update (setScheduledReminders
                    (<[userId := delete reminderId (default ∅ (t !! userId))]> t))
      | None => ret tt
      end ;>
      ret true
  end end.

(** [reminderArray.sort((a, b) => new Date(a.time) - new Date(b.time))]:
    ascending by time, reminders of equal time in the order they had. *)
Fixpoint insertByTime (x : string * Reminder) (l : list (string * Reminder))
  : list (string * Reminder) :=
  match l with
  | [] => [x]
  | y :: l' =>
      if time x.2 <=? time y.2 then x :: l else y :: insertByTime x l'
  end.

Definition sortByTime (l : list (string * Reminder)) : list (string * Reminder) :=
  foldr insertByTime [] l.

(** [listReminders(userId)]: the entries [{ id, ...reminder }] as pairs.
    The entries are taken in the order of [map_to_list]; the order in
    which the host lists the keys shows only among reminders of equal
    time. The [catch] clause is outside the model, as for
    [deleteReminder]. *)
Definition listReminders (userId : string) : Eff (list (string * Reminder)) :=
  reminders <~ readJson;
  match reminders !! userId with
  | None => ret []
  | Some userReminders =>
      let reminderArray :=
        List.filter (λ e, negb (completed e.2)) (map_to_list userReminders) in
      ret (sortByTime reminderArray)
  end.

(** The record of a user and id in [reminders.json]. *)
Definition record (w : World) (userId reminderId : string) : option Reminder :=
  remindersFile w !! userId ≫= (.!! reminderId).

(** The job [scheduledReminders] holds for a user and id. *)
Definition timer (w : World) (userId reminderId : string) : option Job :=
  lookupJob (scheduledReminders w) userId reminderId ≫= (jobs w !!.).

(** Job [h] is live: its invocation is still to come. *)
Definition live (w : World) (h : nat) : bool :=
  match jobs w !! h with
  | Some j => pending j
  | None => false
  end.

(** The handles of the live jobs that would fire for a user and id. *)
Definition liveTimers (w : World) (userId reminderId : string) : list nat :=
  List.filter (λ h, match jobs w !! h with
               | Some j => pending j && bool_decide (jobUserId j = userId)
                           && bool_decide (jobReminderId j = reminderId)
               | None => false
               end) (seq 0 (length (jobs w))).

(** The number of records a user has. *)
Definition recordCount (w : World) (userId : string) : nat :=
  size (default ∅ (remindersFile w !! userId)).

(** A process that has just started: nothing scheduled, nothing sent. *)
Definition started (now : Z) (file : gmap string (gmap string Reminder))
    (users : gmap string UserData) (up : bool) : World :=
  mkWorld now file users up [] [] ∅ [].

End Reminders.
Import Reminders.


(** ** Notions the statements use *)

Local Open Scope string_scope.
Local Open Scope Z_scope.
Local Open Scope list_scope.

(** Days of month [m] (0-based) of year [y]. *)
Definition DaysInMonth (y m : Z) : Z :=
  match m with
  | 1 => if DaysInYear y =? 365 then 28 else 29
  | 3 | 5 | 8 | 10 => 30
  | _ => 31
  end.

(** The calendar fields of an instant in the host's zone: year, month
    (0-based), day of the month, milliseconds into the day. *)
Definition localFields (LocalTZA : Zone) (t : Z) : Z * Z * Z * Z :=
  (getFullYear LocalTZA t, getMonth LocalTZA t, getDate LocalTZA t,
   TimeWithinDay (LocalTime LocalTZA t)).

(** The same fields of a local time value, the time a clock on the wall
    shows. *)
Definition wallFields (t : Z) : Z * Z * Z * Z :=
  (YearFromTime t, MonthFromTime t, DateFromTime t, TimeWithinDay t).


(** ** The matcher does not run out of its counter *)

(** State [y] is [x] or further along the same input. *)
Definition ahead (y x : State) : Prop :=
  (length (rest y) ≤ length (rest x))%nat
  ∧ (endIndex y + length (rest y) = endIndex x + length (rest x))%nat.

(** *** Worlds the examples run in *)

Definition ann : UserData := mkUserData (Some "Ann") (Some "Mika").

(** A process started at clock 1000 with an empty [reminders.json] and
    one user file. *)
Definition exStart : World := started 1000 ∅ {[ "ann@wa" := ann ]} true.

(** ... after one reminder, for clock 5000, of the given recurrence. *)
Definition exOne (recurring : option string) : World :=
  run (createReminder "ann@wa" "call mom" 5000 recurring) exStart.

(** ... after two reminders for the same user in the same millisecond. *)
Definition exTwice : World :=
  run (createReminder "ann@wa" "water the plants" 5000 None) (exOne None).

(** The transport going down. *)
Definition sockDown (w : World) : World :=
  mkWorld (clock w) (remindersFile w) (userFiles w) false (outbox w) (jobs w)
          (scheduledReminders w) (console w).

(** The recurrences the [switch] knows. *)
Definition knownRecurrence (s : string) : Prop :=
  s = "daily" ∨ s = "weekly" ∨ s = "monthly".



(** The test of the recovery loop: neither completed nor before [now]. *)
Definition armable (now : Z) (r : Reminder) : bool :=
  negb (completed r || (time r <? now)).

(** The state of the timer table after the recovery loop has gone through
    the records [S]: each armable record has its job, registered under
    its user and id and built from the record; no other record has an
    entry; every job is the one registered under its own user and id. *)
Definition Recovered (now : Z) (S : string → string → option Reminder) (w : World) : Prop :=
  (∀ u id,
     match S u id with
     | Some r =>
         if armable now r
         then ∃ h, lookupJob (scheduledReminders w) u id = Some h
                   ∧ jobs w !! h = Some (mkJob (time r) u id r true)
         else lookupJob (scheduledReminders w) u id = None
     | None => lookupJob (scheduledReminders w) u id = None
     end)
  ∧ (∀ h j, jobs w !! h = Some j →
            lookupJob (scheduledReminders w) (jobUserId j) (jobReminderId j) = Some h).

(** The body of the inner loop of [initializeReminderSystem]. *)
Definition recoverOne (userId reminderId : string) (reminder : Reminder) : Eff unit :=
  bind dateNow (λ now,
    if completed reminder || (time reminder <? now) then ret tt
    else scheduleReminder userId reminderId reminder).

(** *** Notions of the further properties *)

(** The order [listReminders] sorts by. *)
Definition byTime (a b : string * Reminder) : Prop := time a.2 ≤ time b.2.

(** The time of a recurring reminder after [n] firings: [nextTime]
    applied [n] times. *)
Fixpoint nextTimes (LocalTZA : Zone) (recurring : option string) (n : nat) (t : Z)
  : option Z :=
  match n with
  | O => Some t
  | S n' => nextTimes LocalTZA recurring n' t ≫= nextTime LocalTZA recurring
  end.

(** The names a plain object inherits from [Object.prototype]: with one
    of them for [k], the source's test of [o[k]] finds a function of the
    host (the prototype itself under the last name) also when [o] has no
    such key. *)
Definition objectPrototypeKeys : list string :=
  ["constructor"; "hasOwnProperty"; "isPrototypeOf"; "propertyIsEnumerable";
   "toLocaleString"; "toString"; "valueOf"; "__defineGetter__";
   "__defineSetter__"; "__lookupGetter__"; "__lookupSetter__"; "__proto__"].

Definition inherited (k : string) : bool := bool_decide (k ∈ objectPrototypeKeys).

(** What the recovery pass leaves alone. *)
Definition untouched (w w' : World) : Prop :=
  remindersFile w' = remindersFile w ∧ userFiles w' = userFiles w
  ∧ outbox w' = outbox w ∧ clock w' = clock w ∧ sockUp w' = sockUp w.

(** The units of the relative grammar with the milliseconds the source
    multiplies by. *)
Definition unitMillis : list (string * Z) :=
  [("minute", 60 * 1000); ("minutes", 60 * 1000);
   ("hour", 60 * 60 * 1000); ("hours", 60 * 60 * 1000);
   ("day", 24 * 60 * 60 * 1000); ("days", 24 * 60 * 60 * 1000)].

(** The alternation of units in [inPattern]. *)
Definition unitsAlt : regex :=
  Alts [Lit "minute"; Lit "minutes"; Lit "hour"; Lit "hours"; Lit "day"; Lit "days"].

(** The largest time value of the host. *)
Definition maxTime : Z := 8640000000000000.

(** ** The matcher *)

Lemma ahead_refl x : ahead x x.
Proof. by split. Qed.

Lemma ahead_trans z y x : ahead z y → ahead y x → ahead z x.
Proof. unfold ahead. lia. Qed.

Lemma orElse_not_exhausted a b :
  a ≠ Exhausted → b tt ≠ Exhausted → orElse a b ≠ Exhausted.
Proof. by destruct a. Qed.

(** The counter of a repetition is enough when it is above the required
    iterations plus the input left: an iteration uses up one of the
    former or a character of the latter. *)
Lemma RepeatMatcher_continues m gs greedy c x0 :
  (∀ x k, (∀ y, ahead y x → k y ≠ Exhausted) → m x k ≠ Exhausted) →
  (∀ y, ahead y x0 → c y ≠ Exhausted) →
  ∀ fuel min max x,
    ahead x x0 → (min + length (rest x) < fuel)%nat →
    RepeatMatcher m gs greedy c fuel min max x ≠ Exhausted.
Proof.
  intros Hm Hc. induction fuel as [|fuel IH]; intros min max x Hx Hfuel; [lia|].
  assert (∀ max', m (clearCaptures gs x) (λ y,
            if Nat.eqb min 0 && Nat.eqb (endIndex y) (endIndex x) then Failure
            else RepeatMatcher m gs greedy c fuel (Nat.pred min) max' y) ≠ Exhausted)
    as Hiter.
  { intros max'. apply Hm. intros y Hy.
    destruct (Nat.eqb min 0 && Nat.eqb (endIndex y) (endIndex x)) eqn:Hz; [done|].
    apply IH.
    - eapply ahead_trans; [exact Hy|exact Hx].
    - unfold ahead in Hy. simpl in Hy.
      apply andb_false_iff in Hz as [Hz|Hz]; apply Nat.eqb_neq in Hz; lia. }
  simpl. destruct max as [[|k]|]; [by apply Hc| |].
  - destruct (Nat.eqb min 0); simpl; [|apply Hiter].
    destruct greedy; simpl; apply orElse_not_exhausted;
      (apply Hiter || by apply Hc).
  - destruct (Nat.eqb min 0); simpl; [|apply Hiter].
    destruct greedy; simpl; apply orElse_not_exhausted;
      (apply Hiter || by apply Hc).
Qed.

(** A matcher run with a continuation that does not run out does not run
    out. *)
Lemma matcher_continues icase r :
  ∀ x c, (∀ y, ahead y x → c y ≠ Exhausted) → matcher icase r x c ≠ Exhausted.
Proof.
  induction r as [|ch|p|r1 IH1 r2 IH2|r1 IH1 r2 IH2|min max greedy r1 IH|i r1 IH| |];
    intros x c Hc; simpl.
  - apply Hc, ahead_refl.
  - unfold step. destruct (rest x) as [|a s'] eqn:Hx; [done|].
    case_match; [|done]. apply Hc. unfold ahead. simpl. rewrite Hx. simpl. lia.
  - unfold step. destruct (rest x) as [|a s'] eqn:Hx; [done|].
    case_match; [|done]. apply Hc. unfold ahead. simpl. rewrite Hx. simpl. lia.
  - apply IH1. intros y Hy. apply IH2. intros z Hz.
    apply Hc. by eapply ahead_trans.
  - apply orElse_not_exhausted; [by apply IH1|by apply IH2].
  - apply (RepeatMatcher_continues _ _ _ _ x); [exact IH|exact Hc|apply ahead_refl|lia].
  - apply IH. intros y Hy. by apply Hc.
  - case_match; [|done]. apply Hc, ahead_refl.
  - case_match; [|done]. apply Hc, ahead_refl.
Qed.

(** A match attempt ends in a match or in failure. *)
Lemma matcher_never_exhausted icase r x : matcher icase r x Matched ≠ Exhausted.
Proof. by apply matcher_continues. Qed.

(** [exec] finds no match only when the match fails at every start. *)
Lemma execFrom_None p i s :
  execFrom p i s = None →
  matcher (ignoreCase p) (body p)
          (mkState i s (replicate (S (nGroups p)) None)) Matched = Failure.
Proof.
  pose proof (matcher_never_exhausted (ignoreCase p) (body p)
                (mkState i s (replicate (S (nGroups p)) None))) as H.
  destruct s; simpl; by destruct (matcher _ _ _ _).
Qed.

(** ** The calendar *)

(** The twelve cases of a month number in range. *)
Ltac month_cases m :=
  let Hc := fresh "Hc" in
  assert (m = 0 ∨ m = 1 ∨ m = 2 ∨ m = 3 ∨ m = 4 ∨ m = 5 ∨ m = 6 ∨ m = 7
          ∨ m = 8 ∨ m = 9 ∨ m = 10 ∨ m = 11) as Hc by lia;
  destruct_or!; subst m.

(** Decide the comparisons of the goal, one after the other. *)
Ltac decide_ltb :=
  repeat (match goal with
          | |- context [?a <? ?b] => destruct (Z.ltb_spec a b)
          end; simpl).

Lemma DayFromYear_succ y : DayFromYear (y + 1) = DayFromYear y + DaysInYear y.
Proof.
  unfold DayFromYear, DaysInYear.
  repeat (match goal with |- context [?a =? ?b] => destruct (Z.eqb_spec a b) end; simpl);
  Z.div_mod_to_equations; lia.
Qed.

Lemma DaysInYear_cases y : DaysInYear y = 365 ∨ DaysInYear y = 366.
Proof. unfold DaysInYear. repeat case_match; auto. Qed.

Lemma DayFromYear_mono y1 y2 : y1 < y2 → DayFromYear y1 < DayFromYear y2.
Proof. unfold DayFromYear. intros. Z.div_mod_to_equations. lia. Qed.

Lemma YearFromDay_spec d :
  DayFromYear (YearFromDay d) ≤ d < DayFromYear (YearFromDay d + 1).
Proof.
  unfold YearFromDay.
  set (y := 1970 + d * 400 / 146097).
  destruct (Z.ltb_spec d (DayFromYear y)).
  - replace (y - 1 + 1) with y by lia. split; [|lia].
    unfold DayFromYear in *. subst y. Z.div_mod_to_equations. lia.
  - destruct (Z.leb_spec (DayFromYear (y + 1)) d).
    + split; [lia|]. unfold DayFromYear in *. subst y. Z.div_mod_to_equations. lia.
    + lia.
Qed.

(** [YearFromDay d] is the largest year that starts on or before day [d]. *)
Lemma YearFromDay_largest d y : DayFromYear y ≤ d ↔ y ≤ YearFromDay d.
Proof.
  pose proof (YearFromDay_spec d) as [Hlo Hhi]. split; intros H.
  - destruct (Z.le_gt_cases y (YearFromDay d)) as [|Hgt]; [done|].
    assert (YearFromDay d + 1 ≤ y) as Hle by lia.
    apply Zle_lt_or_eq in Hle as [Hlt| <-]; [|lia].
    apply DayFromYear_mono in Hlt. lia.
  - apply Zle_lt_or_eq in H as [Hlt| ->]; [|done].
    apply DayFromYear_mono in Hlt. lia.
Qed.

Lemma YearFromDay_unique d y :
  DayFromYear y ≤ d < DayFromYear (y + 1) → YearFromDay d = y.
Proof.
  intros [Hlo Hhi]. apply YearFromDay_largest in Hlo.
  destruct (Z.le_gt_cases (YearFromDay d) y) as [|Hgt]; [lia|].
  assert (y + 1 ≤ YearFromDay d) as Hle by lia.
  apply YearFromDay_largest in Hle. lia.
Qed.

Lemma Day_MakeDate day tod : 0 ≤ tod < msPerDay → Day (MakeDate day tod) = day.
Proof.
  intros. unfold Day, MakeDate, msPerDay in *.
  Z.div_mod_to_equations. lia.
Qed.

Lemma TimeWithinDay_MakeDate day tod :
  0 ≤ tod < msPerDay → TimeWithinDay (MakeDate day tod) = tod.
Proof.
  intros. unfold TimeWithinDay, MakeDate, msPerDay in *.
  Z.div_mod_to_equations. lia.
Qed.

Lemma MakeDate_Day t : MakeDate (Day t) (TimeWithinDay t) = t.
Proof.
  unfold MakeDate, Day, TimeWithinDay, msPerDay. Z.div_mod_to_equations. lia.
Qed.

Lemma TimeWithinDay_range t : 0 ≤ TimeWithinDay t < msPerDay.
Proof. unfold TimeWithinDay, msPerDay. Z.div_mod_to_equations. lia. Qed.

Lemma DayWithinYear_range t :
  0 ≤ DayWithinYear t < DaysInYear (YearFromTime t).
Proof.
  unfold DayWithinYear, YearFromTime.
  pose proof (YearFromDay_spec (Day t)) as H.
  rewrite DayFromYear_succ in H. lia.
Qed.

Lemma MonthFromTime_range t : 0 ≤ MonthFromTime t ≤ 11.
Proof. unfold MonthFromTime. repeat case_match; lia. Qed.

Lemma DateFromTime_range t :
  1 ≤ DateFromTime t ≤ DaysInMonth (YearFromTime t) (MonthFromTime t).
Proof.
  pose proof (DayWithinYear_range t) as Hd.
  unfold DateFromTime, DaysInMonth, MonthFromTime, InLeapYear in *.
  destruct (DaysInYear_cases (YearFromTime t)) as [Hy|Hy]; rewrite Hy in *; simpl;
  decide_ltb; lia.
Qed.

(** Adding to the day of the month moves the day number by as much. *)
Lemma MakeDay_DateFromTime t k :
  MakeDay (YearFromTime t) (MonthFromTime t) (DateFromTime t + k) = Day t + k.
Proof.
  pose proof (MonthFromTime_range t) as Hm.
  unfold MakeDay.
  rewrite Z.div_small, Z.mod_small by lia.
  rewrite Z.add_0_r. unfold DateFromTime, DayWithinYear, InLeapYear. lia.
Qed.

(** The fields of a date built from a year, a month and a day that month
    has are those three. *)
Lemma fields_MakeDay y m dt tod :
  0 ≤ m ≤ 11 → 1 ≤ dt ≤ DaysInMonth y m → 0 ≤ tod < msPerDay →
  let t := MakeDate (MakeDay y m dt) tod in
  YearFromTime t = y ∧ MonthFromTime t = m ∧ DateFromTime t = dt
  ∧ TimeWithinDay t = tod.
Proof.
  intros Hm Hdt Htod t.
  assert (Day t = MakeDay y m dt) as HD by (apply Day_MakeDate; done).
  assert (MakeDay y m dt =
          DayFromYear y + DaysBeforeMonth m (if DaysInYear y =? 365 then 0 else 1) + dt - 1)
    as HM.
  { unfold MakeDay. rewrite Z.div_small, Z.mod_small by lia. by rewrite Z.add_0_r. }
  assert (YearFromTime t = y) as HY.
  { unfold YearFromTime. rewrite HD. apply YearFromDay_unique.
    rewrite DayFromYear_succ, HM. unfold DaysInMonth in Hdt.
    destruct (DaysInYear_cases y) as [Hy|Hy]; rewrite Hy in *; simpl in *;
    month_cases m; simpl in *; lia. }
  assert (DayWithinYear t = DaysBeforeMonth m (InLeapYear t) + dt - 1) as HW.
  { unfold DayWithinYear, InLeapYear. rewrite HY, HD, HM. lia. }
  assert (MonthFromTime t = m) as HMo.
  { unfold MonthFromTime. rewrite HW. unfold InLeapYear. rewrite HY.
    unfold DaysInMonth in Hdt.
    destruct (DaysInYear_cases y) as [Hy|Hy]; rewrite Hy in *; simpl in *;
    month_cases m; simpl in *; decide_ltb; lia. }
  repeat split; [done..| |].
  - unfold DateFromTime. rewrite HMo, HW. lia.
  - by apply TimeWithinDay_MakeDate.
Qed.

(** A month on from a local time: the same day of the month when the
    month after has it, else as many days into the month after that as
    the day exceeds it. *)
Lemma wallFields_next_month t :
  let '(y, m, dt, tod) := wallFields t in
  let y1 := y + (m + 1) / 12 in
  let m1 := (m + 1) mod 12 in
  wallFields (MakeDate (MakeDay y (m + 1) dt) tod) =
    if dt <=? DaysInMonth y1 m1 then (y1, m1, dt, tod)
    else (y1, m1 + 1, dt - DaysInMonth y1 m1, tod).
Proof.
  unfold wallFields.
  pose proof (MonthFromTime_range t) as Hm.
  pose proof (DateFromTime_range t) as Hdt.
  pose proof (TimeWithinDay_range t) as Htod.
  set (y := YearFromTime t) in *. set (m := MonthFromTime t) in *.
  set (dt := DateFromTime t) in *. set (tod := TimeWithinDay t) in *.
  set (y1 := y + (m + 1) / 12). set (m1 := (m + 1) mod 12).
  assert (0 ≤ m1 ≤ 11) as Hm1 by (subst m1; Z.div_mod_to_equations; lia).
  assert (MakeDay y (m + 1) dt = MakeDay y1 m1 dt) as HMD.
  { unfold MakeDay. fold y1 m1. rewrite (Z.div_small m1), (Z.mod_small m1) by lia.
    by rewrite Z.add_0_r. }
  assert (dt ≤ 31) as Hdt31.
  { unfold DaysInMonth in Hdt. repeat case_match; lia. }
  destruct (Z.leb_spec dt (DaysInMonth y1 m1)) as [Hfit|Hover].
  - rewrite HMD.
    destruct (fields_MakeDay y1 m1 dt tod) as (-> & -> & -> & ->); [lia..|done].
  - assert (m1 ≤ 10) as Hm10.
    { unfold DaysInMonth in Hover. repeat case_match; lia. }
    assert (MakeDay y (m + 1) dt = MakeDay y1 (m1 + 1) (dt - DaysInMonth y1 m1)) as HMD'.
    { rewrite HMD. unfold MakeDay.
      rewrite !Z.div_small, !Z.mod_small by lia. rewrite !Z.add_0_r.
      unfold DaysInMonth.
      assert (m1 = 0 ∨ m1 = 1 ∨ m1 = 2 ∨ m1 = 3 ∨ m1 = 4 ∨ m1 = 5 ∨ m1 = 6
              ∨ m1 = 7 ∨ m1 = 8 ∨ m1 = 9 ∨ m1 = 10) as Hc by lia.
      destruct_or!; rewrite Hc; simpl; repeat case_match; lia. }
    rewrite HMD'.
    destruct (fields_MakeDay y1 (m1 + 1) (dt - DaysInMonth y1 m1) tod)
      as (-> & -> & -> & ->); [lia| |lia|done].
    unfold DaysInMonth in *.
    assert (m1 = 0 ∨ m1 = 1 ∨ m1 = 2 ∨ m1 = 3 ∨ m1 = 4 ∨ m1 = 5 ∨ m1 = 6
            ∨ m1 = 7 ∨ m1 = 8 ∨ m1 = 9 ∨ m1 = 10) as Hc by lia.
    destruct_or!; rewrite Hc in *; simpl in *; repeat case_match; lia.
Qed.

Section AnyZone.
Variable LocalTZA : Zone.

(** [setDate] with the day of the month moved by [k]: the host is asked
    for the instant of the local time [k] days on. *)
Lemma setDate_wall d k :
  setDate LocalTZA d (getDate LocalTZA d + k)
  = UTC LocalTZA (LocalTime LocalTZA d + k * msPerDay).
Proof.
  unfold setDate, getDate. rewrite MakeDay_DateFromTime. f_equal.
  pose proof (MakeDate_Day (LocalTime LocalTZA d)) as H.
  unfold MakeDate in *. lia.
Qed.

End AnyZone.

Section FixedZone.
Variable offset : Z.

Lemma LocalTime_fixed t : LocalTime offset t = t + offset.
Proof. done. Qed.

Lemma UTC_fixed t : UTC offset t = t - offset.
Proof. done. Qed.

Lemma setDate_getDate d k :
  setDate offset d (getDate offset d + k) = d + k * msPerDay.
Proof. rewrite setDate_wall, UTC_fixed, LocalTime_fixed. lia. Qed.

(** [setMonth] to the month after, in a zone of fixed offset. *)
Lemma setMonth_next d :
  let '(y, m, dt, tod) := localFields offset d in
  let y1 := y + (m + 1) / 12 in
  let m1 := (m + 1) mod 12 in
  localFields offset (setMonth offset d (getMonth offset d + 1)) =
    if dt <=? DaysInMonth y1 m1 then (y1, m1, dt, tod)
    else (y1, m1 + 1, dt - DaysInMonth y1 m1, tod).
Proof.
  pose proof (wallFields_next_month (LocalTime offset d)) as H.
  unfold localFields, wallFields, getFullYear, getMonth, getDate, setMonth in *.
  set (X := MakeDate _ _) in *.
  replace (LocalTime offset (UTC offset X)) with X
    by (rewrite LocalTime_fixed, UTC_fixed; lia).
  exact H.
Qed.

End FixedZone.

(** ** The effects, step by step *)

Lemma record_Some w u id rec :
  record w u id = Some rec ↔
  ∃ recs, remindersFile w !! u = Some recs ∧ recs !! id = Some rec.
Proof. unfold record. apply bind_Some. Qed.

Lemma truthy_Some s : s ≠ "" → truthy (Some s) = true.
Proof. intros. unfold truthy. by rewrite bool_decide_eq_false_2. Qed.

Section Steps.
Variable LocalTZA : Zone.

Lemma fire_unfold w h j :
  jobs w !! h = Some j → pending j = true → jobDate j ≤ clock w →
  fire LocalTZA h w =
  sendReminderNotification LocalTZA (jobUserId j) (jobReminderId j) (jobReminder j)
    (setJobs (alter cancelled h (jobs w)) w).
Proof.
  intros Hj Hp Hd. unfold fire. rewrite Hj, Hp.
  by destruct (Z.leb_spec (jobDate j) (clock w)); [|lia].
Qed.

(** [markReminderAsCompleted] never throws. *)
Lemma mark_normal u id rc w :
  result (markReminderAsCompleted LocalTZA u id rc) w = Normal tt.
Proof.
  unfold result, markReminderAsCompleted, tryCatch, bind, readJson, ret, writeJson, update.
  destruct (remindersFile w !! u) as [recs|]; [|done].
  destruct (recs !! id) as [rec|]; [|done].
  destruct (truthy rc).
  - destruct (nextTime LocalTZA rc (time rec)); [|done]. simpl.
    by destruct (lookupJob (scheduledReminders w) u id).
  - simpl. by destruct (lookupJob (scheduledReminders w) u id).
Qed.

Lemma mark_absent u id rc w :
  record w u id = None → run (markReminderAsCompleted LocalTZA u id rc) w = w.
Proof.
  unfold record, run, markReminderAsCompleted, tryCatch, bind, readJson, ret.
  destruct (remindersFile w !! u) as [recs|]; [|done]. simpl.
  by intros ->.
Qed.

(** The world after the recurring branch has a next time. *)
Lemma mark_advance u id rc w recs rec next :
  remindersFile w !! u = Some recs → recs !! id = Some rec →
  truthy rc = true → nextTime LocalTZA rc (time rec) = Some next →
  run (markReminderAsCompleted LocalTZA u id rc) w =
  setRemindersFile (<[u := <[id := withTime rec next]> recs]> (remindersFile w))
    (match lookupJob (scheduledReminders w) u id with
     | Some h => setJobs (alter cancelled h (jobs w)) w
     | None => w
     end).
Proof.
  intros Hu Hid Ht Hn.
  unfold run, markReminderAsCompleted, tryCatch, bind, readJson, ret, writeJson, update.
  rewrite Hu, Hid, Ht, Hn. simpl.
  by destruct (lookupJob (scheduledReminders w) u id).
Qed.

(** The world after the default case of the [switch]. *)
Lemma mark_default u id rc w recs rec :
  remindersFile w !! u = Some recs → recs !! id = Some rec →
  truthy rc = true → nextTime LocalTZA rc (time rec) = None →
  run (markReminderAsCompleted LocalTZA u id rc) w =
  setRemindersFile (<[u := <[id := withCompleted rec true]> recs]> (remindersFile w)) w.
Proof.
  intros Hu Hid Ht Hn.
  unfold run, markReminderAsCompleted, tryCatch, bind, readJson, ret, writeJson, update.
  by rewrite Hu, Hid, Ht, Hn.
Qed.

(** The world after the non-recurring branch. *)
Lemma mark_delete u id rc w recs rec :
  remindersFile w !! u = Some recs → recs !! id = Some rec → truthy rc = false →
  run (markReminderAsCompleted LocalTZA u id rc) w =
  setRemindersFile
    (if Nat.eqb (size (delete id recs)) 0 then delete u (remindersFile w)
     else <[u := delete id recs]> (remindersFile w))
    (match lookupJob (scheduledReminders w) u id with
     | Some h =>
         setScheduledReminders
           (<[u := delete id (default ∅ (scheduledReminders w !! u))]>
              (scheduledReminders w))
           (setJobs (alter cancelled h (jobs w)) w)
     | None => w
     end).
Proof.
  intros Hu Hid Ht.
  unfold run, markReminderAsCompleted, tryCatch, bind, readJson, ret, writeJson, update.
  rewrite Hu, Hid, Ht. simpl.
  by destruct (lookupJob (scheduledReminders w) u id).
Qed.

Lemma send_delivered u id r w ud :
  userFiles w !! u = Some ud → sockUp w = true →
  sendReminderNotification LocalTZA u id r w =
  let w1 := setOutbox (outbox w ++ [(u, notificationText ud r)]) w in
  let w2 := run (markReminderAsCompleted LocalTZA u id (recurring r)) w1 in
  (Normal tt, setConsole (console w2 ++ [LogSent u id]) w2).
Proof.
  intros Hu Hs.
  unfold sendReminderNotification, tryCatch, bind, getUserData, sendMessage.
  rewrite Hu, Hs.
  pose proof (mark_normal u id (recurring r)
                (setOutbox (outbox w ++ [(u, notificationText ud r)]) w)) as Hn.
  unfold result, run in *.
  destruct (markReminderAsCompleted _ _ _ _ _) as [c w2]. simpl in *. by subst c.
Qed.

Lemma send_failed u id r w ud :
  userFiles w !! u = Some ud → sockUp w = false →
  sendReminderNotification LocalTZA u id r w =
  (Normal tt, setConsole (console w ++ [ErrSending u id]) w).
Proof.
  intros Hu Hs.
  unfold sendReminderNotification, tryCatch, bind, getUserData, sendMessage, throw.
  by rewrite Hu, Hs.
Qed.

Lemma send_no_user u id r w :
  userFiles w !! u = None →
  sendReminderNotification LocalTZA u id r w =
  (Normal tt, setConsole (console w ++ [LogUserNotFound u]) w).
Proof.
  intros Hu.
  unfold sendReminderNotification, tryCatch, bind, getUserData.
  by rewrite Hu.
Qed.

(** The world after a job has fired and its message has gone out. *)
Lemma fire_delivered w h j ud :
  jobs w !! h = Some j → pending j = true → jobDate j ≤ clock w →
  userFiles w !! jobUserId j = Some ud → sockUp w = true →
  run (fire LocalTZA h) w =
  let w1 := setOutbox (outbox w ++ [(jobUserId j, notificationText ud (jobReminder j))])
              (setJobs (alter cancelled h (jobs w)) w) in
  let w2 := run (markReminderAsCompleted LocalTZA (jobUserId j) (jobReminderId j)
                   (recurring (jobReminder j))) w1 in
  setConsole (console w2 ++ [LogSent (jobUserId j) (jobReminderId j)]) w2.
Proof.
  intros Hj Hp Hd Hu Hs. unfold run at 1.
  rewrite (fire_unfold w h j Hj Hp Hd).
  by rewrite (send_delivered _ _ _ _ ud).
Qed.

End Steps.

(** ** Arming and recovery *)

Lemma schedule_past u id r w :
  time r < clock w →
  scheduleReminder u id r w =
  (Normal tt, setConsole (console w ++ [LogSkipPast id u]) w).
Proof.
  intros H. unfold scheduleReminder, tryCatch, bind, dateNow, logE, update.
  by destruct (Z.ltb_spec (time r) (clock w)); [|lia].
Qed.

Lemma schedule_due u id r w :
  clock w ≤ time r →
  scheduleReminder u id r w =
  (Normal tt,
   setConsole (console w ++ [LogScheduled id u (time r)])
     (setScheduledReminders
        (<[u := <[id := length (jobs w)]> (default ∅ (scheduledReminders w !! u))]>
           (scheduledReminders w))
        (setJobs (jobs w ++ [mkJob (time r) u id r true]) w))).
Proof.
  intros H.
  unfold scheduleReminder, tryCatch, bind, dateNow, logE, update, scheduleJob.
  destruct (Z.ltb_spec (time r) (clock w)); [lia|]. simpl.
  do 3 f_equal.
  destruct (scheduledReminders w !! u) as [m|] eqn:Hu.
  - rewrite bool_decide_eq_false_2 by done. by rewrite Hu.
  - rewrite bool_decide_eq_true_2 by done.
    rewrite lookup_insert_eq. simpl. by rewrite insert_insert_eq.
Qed.

Lemma lookupJob_insert (t : gmap string (gmap string nat)) u id h u' id' :
  lookupJob (<[u := <[id := h]> (default ∅ (t !! u))]> t) u' id' =
  if decide (u' = u ∧ id' = id) then Some h else lookupJob t u' id'.
Proof.
  unfold lookupJob. destruct (decide (u' = u)) as [->|Hu].
  - rewrite lookup_insert_eq. simpl. destruct (decide (id' = id)) as [->|Hid].
    + rewrite lookup_insert_eq. by rewrite decide_True.
    + rewrite lookup_insert_ne by done. rewrite decide_False by (by intros [??]).
      by destruct (t !! u).
  - rewrite lookup_insert_ne by done. by rewrite decide_False by (by intros [??]).
Qed.

Lemma Recovered_ext now S S' w :
  (∀ u id, S u id = S' u id) → Recovered now S w → Recovered now S' w.
Proof.
  intros HS [H1 H2]. split; [|done]. intros u id. rewrite <- HS. apply H1.
Qed.

Lemma Recovered_console now S w c :
  Recovered now S w → Recovered now S (setConsole c w).
Proof. done. Qed.

(** One turn of the inner loop keeps the invariant, for a record not yet
    gone through. *)
Lemma recoverOne_Recovered now S w u id r :
  Recovered now S w → S u id = None → clock w = now →
  Recovered now (λ u' id', if decide (u' = u ∧ id' = id) then Some r else S u' id')
            (run (recoverOne u id r) w)
  ∧ clock (run (recoverOne u id r) w) = now
  ∧ result (recoverOne u id r) w = Normal tt.
Proof.
  intros [H1 H2] HS Hc. unfold run, result, recoverOne, bind, dateNow. rewrite Hc.
  destruct (completed r || (time r <? now)) eqn:Hskip.
  - simpl. split_and!; [|done..]. split; [|done].
    intros u' id'. destruct (decide _) as [[-> ->]|_]; [|apply H1].
    unfold armable. rewrite Hskip. simpl.
    specialize (H1 u id). by rewrite HS in H1.
  - apply orb_false_iff in Hskip as [Hcomp Hlt].
    apply Z.ltb_ge in Hlt.
    rewrite schedule_due by lia. simpl. split_and!; [|done..].
    split.
    + intros u' id'.
      cbn [scheduledReminders jobs setConsole setScheduledReminders setJobs].
      rewrite lookupJob_insert.
      destruct (decide _) as [[-> ->]|Hne].
      * unfold armable. rewrite Hcomp. simpl.
        destruct (Z.ltb_spec (time r) now); [lia|]. simpl.
        exists (length (jobs w)). split; [done|].
        by rewrite lookup_app_r, Nat.sub_diag.
      * specialize (H1 u' id'). destruct (S u' id') as [r'|]; [|done].
        destruct (armable now r'); [|done].
        destruct H1 as (h & Hl & Hj). exists h. split; [done|].
        by rewrite lookup_app_l by (by eapply lookup_lt_Some).
    + intros h j.
      cbn [scheduledReminders jobs setConsole setScheduledReminders setJobs].
      intros Hj. rewrite lookupJob_insert.
      apply lookup_app_Some in Hj as [Hj|[Hlen Hj]].
      * specialize (H2 h j Hj). rewrite decide_False; [done|].
        intros [Hu Hid]. rewrite Hu, Hid in H2.
        specialize (H1 u id). rewrite HS in H1. congruence.
      * apply list_lookup_singleton_Some in Hj as [Hh <-]. simpl.
        rewrite decide_True by done. f_equal. lia.
Qed.

Lemma run_bind_normal {A} (m : Eff unit) (k : Eff A) w :
  result m w = Normal tt →
  run (bind m (λ _, k)) w = run k (run m w)
  ∧ result (bind m (λ _, k)) w = result k (run m w).
Proof.
  unfold run, result, bind. destruct (m w) as [c w']. simpl. by intros ->.
Qed.

(** The inner loop, over the records of one user. *)
Lemma forIn_records_Recovered now u (recs : gmap string Reminder) :
  ∀ S w,
  Recovered now S w → (∀ id, is_Some (recs !! id) → S u id = None) → clock w = now →
  let loop := forIn recs (recoverOne u) in
  Recovered now (λ u' id', if decide (u' = u)
                           then match recs !! id' with
                                | Some r => Some r
                                | None => S u' id'
                                end
                           else S u' id') (run loop w)
  ∧ clock (run loop w) = now
  ∧ result loop w = Normal tt.
Proof.
  unfold forIn.
  apply (map_fold_weak_ind (λ (loop : Eff unit) (recs : gmap string Reminder),
    ∀ S w, Recovered now S w → (∀ id, is_Some (recs !! id) → S u id = None) →
           clock w = now →
           Recovered now (λ u' id', if decide (u' = u)
                                    then match recs !! id' with
                                         | Some r => Some r
                                         | None => S u' id'
                                         end
                                    else S u' id') (run loop w)
           ∧ clock (run loop w) = now ∧ result loop w = Normal tt)).
  - intros S w HR _ Hc. split_and!; [|done..].
    eapply Recovered_ext; [|exact HR]. intros u' id'. simpl.
    destruct (decide _); [|done]. by rewrite lookup_empty.
  - intros id r m loop Hfresh IH S w HR HS Hc.
    destruct (recoverOne_Recovered now S w u id r HR) as (HR1 & Hc1 & Hn1);
      [apply HS; rewrite lookup_insert_eq; eauto|done|].
    destruct (run_bind_normal (recoverOne u id r) loop w Hn1) as [-> ->].
    destruct (IH _ _ HR1) as (HR2 & Hc2 & Hn2); [|done|].
    { intros id' Hid'. rewrite decide_False.
      - apply HS. rewrite lookup_insert_ne; [done|]. intros <-.
        rewrite Hfresh in Hid'. by destruct Hid'.
      - intros [_ ->]. rewrite Hfresh in Hid'. by destruct Hid'. }
    split_and!; [|done..].
    eapply Recovered_ext; [|exact HR2]. intros u' id'. simpl.
    destruct (decide (u' = u)) as [->|Hu].
    + destruct (decide (id' = id)) as [->|Hid].
      * rewrite lookup_insert_eq, Hfresh. by rewrite decide_True.
      * rewrite lookup_insert_ne by done. rewrite decide_False by (by intros [??]).
        done.
    + by rewrite decide_False by (by intros [??]).
Qed.

(** The outer loop, over the users. *)
Lemma forIn_users_Recovered now (file : gmap string (gmap string Reminder)) :
  ∀ S w,
  Recovered now S w → (∀ u id, is_Some (file !! u) → S u id = None) → clock w = now →
  let loop := forIn file (λ u recs, forIn recs (recoverOne u)) in
  Recovered now (λ u id, match file !! u with
                         | Some recs => recs !! id
                         | None => S u id
                         end) (run loop w)
  ∧ clock (run loop w) = now
  ∧ result loop w = Normal tt.
Proof.
  unfold forIn at 1.
  apply (map_fold_weak_ind (λ (loop : Eff unit) (file : gmap string (gmap string Reminder)),
    ∀ S w, Recovered now S w → (∀ u id, is_Some (file !! u) → S u id = None) →
           clock w = now →
           Recovered now (λ u id, match file !! u with
                                  | Some recs => recs !! id
                                  | None => S u id
                                  end) (run loop w)
           ∧ clock (run loop w) = now ∧ result loop w = Normal tt)).
  - intros S w HR _ Hc. split_and!; [|done..].
    eapply Recovered_ext; [|exact HR]. intros u id. by rewrite lookup_empty.
  - intros u recs m loop Hfresh IH S w HR HS Hc.
    destruct (forIn_records_Recovered now u recs S w HR) as (HR1 & Hc1 & Hn1);
      [intros id _; apply HS; rewrite lookup_insert_eq; eauto|done|].
    destruct (run_bind_normal (forIn recs (recoverOne u)) loop w Hn1) as [-> ->].
    destruct (IH _ _ HR1) as (HR2 & Hc2 & Hn2); [|done|].
    { intros u' id' Hu'. rewrite decide_False.
      - apply HS. rewrite lookup_insert_ne; [done|]. intros <-.
        rewrite Hfresh in Hu'. by destruct Hu'.
      - intros ->. rewrite Hfresh in Hu'. by destruct Hu'. }
    split_and!; [|done..].
    eapply Recovered_ext; [|exact HR2]. intros u' id'. simpl.
    destruct (decide (u' = u)) as [->|Hu].
    + rewrite lookup_insert_eq, Hfresh.
      destruct (recs !! id') eqn:Hid; [done|].
      apply HS. rewrite lookup_insert_eq. eauto.
    + by rewrite lookup_insert_ne.
Qed.

(** The table and the jobs after [initializeReminderSystem] in a process
    that has just started. *)
Lemma initialize_Recovered now file users up :
  Recovered now (λ u id, file !! u ≫= (.!! id))
            (run initializeReminderSystem (started now file users up)).
Proof.
  set (w0 := setConsole [LogInitializing] (started now file users up)).
  destruct (forIn_users_Recovered now file (λ _ _, None) w0) as (HR & _ & Hn);
    [|done|done|].
  { split; [done|]. intros h j Hj. by destruct h. }
  assert (run initializeReminderSystem (started now file users up) =
          setConsole (console (run (forIn file (λ u recs, forIn recs (recoverOne u))) w0)
                      ++ [LogInitialized])
            (run (forIn file (λ u recs, forIn recs (recoverOne u))) w0)) as ->.
  { unfold run, result, initializeReminderSystem, initializeReminderSystemAt,
      tryCatch, bind, logE, update, readJson in *.
    cbn [negb]. unfold ret at 1.
    change (setConsole _ (started now file users up)) with w0.
    change (remindersFile w0) with file.
    fold (recoverOne).
    change (λ (reminderId : string) (reminder : Reminder),
              bind dateNow (λ now0, if completed reminder || (time reminder <? now0)
                                    then ret tt
                                    else scheduleReminder ?u reminderId reminder))
      with (recoverOne ?u).
    destruct (forIn file _ w0) as [c w1]. simpl in *. by subst c. }
  apply Recovered_console.
  eapply Recovered_ext; [|exact HR]. intros u id. simpl.
  by destruct (file !! u).
Qed.

(** The timer a record gets at the start of the process. *)
Lemma initialize_timer now file users up u id r :
  file !! u ≫= (.!! id) = Some r → completed r = false → now ≤ time r →
  timer (run initializeReminderSystem (started now file users up)) u id
  = Some (mkJob (time r) u id r true).
Proof.
  intros Hr Hc Hle.
  destruct (initialize_Recovered now file users up) as [H1 _].
  specialize (H1 u id). rewrite Hr in H1.
  unfold armable in H1. rewrite Hc in H1. simpl in H1.
  destruct (Z.ltb_spec (time r) now); [lia|]. simpl in H1.
  destruct H1 as (h & Hl & Hj). unfold timer. by rewrite Hl.
Qed.

(** ** The fire path *)

Lemma knownRecurrence_truthy kind : knownRecurrence kind → truthy (Some kind) = true.
Proof. intros [->|[->| ->]]; done. Qed.

Lemma knownRecurrence_nextTime tz kind t :
  knownRecurrence kind → is_Some (nextTime tz (Some kind) t).
Proof. intros [->|[->| ->]]; unfold nextTime; simpl; eauto. Qed.

Lemma live_alter_cancelled (js : list Job) (h k : nat) :
  match alter cancelled h js !! k with Some j => pending j | None => false end = true →
  match js !! k with Some j => pending j | None => false end = true ∧ k ≠ h.
Proof.
  destruct (decide (k = h)) as [->|Hne].
  - rewrite list_lookup_alter_eq. destruct (js !! h); simpl; done.
  - rewrite list_lookup_alter_ne by done. done.
Qed.

(** What the recurring branch changes: the record's time and, when the
    table holds a job for the reminder, that job's pending invocation. *)
Lemma mark_advance_fields tz u id rc w recs rec next :
  remindersFile w !! u = Some recs → recs !! id = Some rec →
  truthy rc = true → nextTime tz rc (time rec) = Some next →
  let w' := run (markReminderAsCompleted tz u id rc) w in
  remindersFile w' = <[u := <[id := withTime rec next]> recs]> (remindersFile w)
  ∧ scheduledReminders w' = scheduledReminders w
  ∧ outbox w' = outbox w
  ∧ jobs w' = match lookupJob (scheduledReminders w) u id with
              | Some h0 => alter cancelled h0 (jobs w)
              | None => jobs w
              end.
Proof.
  intros Hu Hid Ht Hn w'. subst w'.
  rewrite (mark_advance tz u id rc w recs rec next) by done.
  by destruct (lookupJob _ _ _).
Qed.

Lemma mark_outbox tz u id rc w :
  outbox (run (markReminderAsCompleted tz u id rc) w) = outbox w.
Proof.
  destruct (record w u id) as [rec|] eqn:Hr; [|by rewrite mark_absent].
  apply record_Some in Hr as (recs & Hu & Hid).
  destruct (truthy rc) eqn:Ht.
  - destruct (nextTime tz rc (time rec)) as [next|] eqn:Hn.
    + rewrite (mark_advance tz u id rc w recs rec next) by done.
      by destruct (lookupJob _ _ _).
    + by rewrite (mark_default tz u id rc w recs rec).
  - rewrite (mark_delete tz u id rc w recs rec) by done.
    by destruct (lookupJob _ _ _).
Qed.

(** C1, as the code has it. When a job fires with the user file there and
    the transport up, the message sent is built from the reminder object
    the job captured when it was armed, whatever [reminders.json] holds
    at that time; the file is read only afterwards, by
    [markReminderAsCompleted]. *)
Theorem fire_delivers_armed_copy tz w h j ud :
  jobs w !! h = Some j → pending j = true → jobDate j ≤ clock w →
  userFiles w !! jobUserId j = Some ud → sockUp w = true →
  outbox (run (fire tz h) w) =
  outbox w ++ [(jobUserId j, notificationText ud (jobReminder j))].
Proof.
  intros Hj Hp Hd Hu Hs.
  rewrite (fire_delivered tz w h j ud) by done. cbv zeta.
  cbn [outbox setConsole]. by rewrite mark_outbox.
Qed.

Lemma fire_delivers_armed_copy_witness :
  outbox (run (fire 0 0) (setClock 5000 exTwice)) =
  [("ann@wa", notificationText ann (mkReminder "call mom" 5000 1000 false None))].
Proof.
  apply (fire_delivers_armed_copy 0 (setClock 5000 exTwice) 0
           (mkJob 5000 "ann@wa" "1000" (mkReminder "call mom" 5000 1000 false None) true)
           ann); [reflexivity|reflexivity|simpl; lia|reflexivity|reflexivity].
Defined.

(** C1, as stated, fails. Two reminders created for one user in the same
    millisecond share the id 1000; the file then holds the second text
    under that id, and the first job, when it fires, sends the first
    text, not the text the record has at that time. *)
Lemma fire_ignores_current_text :
  let w := setClock 5000 exTwice in
  record w "ann@wa" "1000" = Some (mkReminder "water the plants" 5000 1000 false None)
  ∧ outbox (run (fire 0 0) w) =
      [("ann@wa", notificationText ann (mkReminder "call mom" 5000 1000 false None))]
  ∧ notificationText ann (mkReminder "call mom" 5000 1000 false None)
    ≠ notificationText ann (mkReminder "water the plants" 5000 1000 false None).
Proof. vm_compute. split; [done|]. split; [done|]. discriminate. Qed.

(** C2, as the code has it. When a job fires for a reminder whose
    recurrence is daily, weekly or monthly (user file there, transport
    up, record in the file), the record stays, with its time replaced by
    the next time computed from the time in the file, and the user has as
    many records as before; no job is created: the jobs live afterwards
    were live before and are not the one that fired, and the job
    [scheduledReminders] holds for the reminder is not live. The
    reminder is armed again only by the next start of the process. *)
Theorem fire_recurring_advances_without_rearming tz w h j ud kind rec :
  jobs w !! h = Some j → pending j = true → jobDate j ≤ clock w →
  userFiles w !! jobUserId j = Some ud → sockUp w = true →
  recurring (jobReminder j) = Some kind → knownRecurrence kind →
  record w (jobUserId j) (jobReminderId j) = Some rec →
  let w' := run (fire tz h) w in
  (∃ next, nextTime tz (Some kind) (time rec) = Some next
           ∧ record w' (jobUserId j) (jobReminderId j) = Some (withTime rec next)
           ∧ ∀ now users up,
               completed rec = false → now ≤ next →
               timer (run initializeReminderSystem
                        (started now (remindersFile w') users up))
                     (jobUserId j) (jobReminderId j)
               = Some (mkJob next (jobUserId j) (jobReminderId j)
                             (withTime rec next) true))
  ∧ recordCount w' (jobUserId j) = recordCount w (jobUserId j)
  ∧ scheduledReminders w' = scheduledReminders w
  ∧ length (jobs w') = length (jobs w)
  ∧ (∀ k, live w' k = true → live w k = true ∧ k ≠ h)
  ∧ (∀ j', timer w' (jobUserId j) (jobReminderId j) = Some j' → pending j' = false).
Proof.
  intros Hj Hp Hd Hu Hs Hrc Hk Hrec w'. subst w'.
  rewrite (fire_delivered tz w h j ud) by done. cbv zeta.
  apply record_Some in Hrec as (recs & Hfu & Hid).
  destruct (knownRecurrence_nextTime tz kind (time rec) Hk) as [next Hn].
  rewrite Hrc.
  set (w1 := setOutbox _ _).
  destruct (mark_advance_fields tz (jobUserId j) (jobReminderId j) (Some kind)
              w1 recs rec next) as (Hfile & Htable & _ & Hjobs);
    [done|done|by apply knownRecurrence_truthy|done|].
  set (w2 := run _ w1) in *.
  change (scheduledReminders w1) with (scheduledReminders w) in *.
  change (jobs w1) with (alter cancelled h (jobs w)) in Hjobs.
  change (remindersFile w1) with (remindersFile w) in Hfile.
  split_and!.
  - assert (record (setConsole (console w2 ++ [LogSent (jobUserId j) (jobReminderId j)]) w2)
                   (jobUserId j) (jobReminderId j) = Some (withTime rec next)) as Hrec'.
    { unfold record. simpl.
      rewrite Hfile, lookup_insert_eq. simpl. apply lookup_insert_eq. }
    exists next. split_and!; [done..|].
    intros now users up Hc Hle.
    by apply (initialize_timer now _ users up _ _ (withTime rec next)).
  - unfold recordCount. simpl. rewrite Hfile, lookup_insert_eq, Hfu. simpl.
    apply map_size_insert_Some. eauto.
  - done.
  - simpl. rewrite Hjobs. destruct (lookupJob _ _ _); by rewrite !length_alter.
  - intros k. unfold live at 1. simpl. rewrite Hjobs. unfold live.
    destruct (lookupJob _ _ _); intros Hl.
    + apply live_alter_cancelled in Hl as [Hl _]. by apply live_alter_cancelled in Hl.
    + by apply live_alter_cancelled in Hl.
  - intros j'. unfold timer. simpl. rewrite Htable, Hjobs. intros Ht.
    apply bind_Some in Ht as (h' & -> & Hj').
    rewrite list_lookup_alter_eq in Hj'.
    destruct (alter cancelled h (jobs w) !! h'); by simplify_eq/=.
Qed.

Lemma fire_recurring_advances_without_rearming_witness :
  let w := setClock 5000 (exOne (Some "daily")) in
  recordCount (run (fire 0 0) w) "ann@wa" = recordCount w "ann@wa".
Proof.
  exact (proj1 (proj2
    (fire_recurring_advances_without_rearming 0 (setClock 5000 (exOne (Some "daily"))) 0
       (mkJob 5000 "ann@wa" "1000" (mkReminder "call mom" 5000 1000 false (Some "daily")) true)
       ann "daily" (mkReminder "call mom" 5000 1000 false (Some "daily"))
       eq_refl eq_refl (Z.le_refl 5000) eq_refl eq_refl eq_refl (or_introl eq_refl)
       eq_refl))).
Defined.

(** C2, as stated, fails. A daily reminder is created and fires: its
    record moves one day on, but the job that was live is used up and no
    job is live for the reminder afterwards. *)
Lemma fire_recurring_leaves_no_live_timer :
  let w := setClock 5000 (exOne (Some "daily")) in
  let w' := run (fire 0 0) w in
  liveTimers w "ann@wa" "1000" = [0%nat]
  ∧ record w' "ann@wa" "1000" =
      Some (mkReminder "call mom" (5000 + msPerDay) 1000 false (Some "daily"))
  ∧ liveTimers w' "ann@wa" "1000" = []
  ∧ length (jobs w') = 1%nat.
Proof. vm_compute. done. Qed.

(** C3, as the code has it. When the job fires and the transport is down
    (user file there), the failure is logged and goes no further, and the
    update that follows a delivery is skipped with it: [reminders.json],
    [scheduledReminders] and the messages sent are what they were, so a
    non-recurring reminder is not deleted and a recurring one does not
    move on; the job is used up, and nothing sends again. *)
Theorem fire_delivery_failure_skips_update tz w h j ud :
  jobs w !! h = Some j → pending j = true → jobDate j ≤ clock w →
  userFiles w !! jobUserId j = Some ud → sockUp w = false →
  let w' := run (fire tz h) w in
  result (fire tz h) w = Normal tt
  ∧ console w' = console w ++ [ErrSending (jobUserId j) (jobReminderId j)]
  ∧ remindersFile w' = remindersFile w
  ∧ scheduledReminders w' = scheduledReminders w
  ∧ outbox w' = outbox w
  ∧ jobs w' = alter cancelled h (jobs w).
Proof.
  intros Hj Hp Hd Hu Hs w'. subst w'. unfold run, result.
  rewrite (fire_unfold tz w h j Hj Hp Hd).
  by rewrite (send_failed tz _ _ _ _ ud).
Qed.

Lemma fire_delivery_failure_skips_update_witness :
  let w := sockDown (setClock 5000 (exOne None)) in
  remindersFile (run (fire 0 0) w) = remindersFile w.
Proof.
  exact (proj1 (proj2 (proj2
    (fire_delivery_failure_skips_update 0 (sockDown (setClock 5000 (exOne None))) 0
       (mkJob 5000 "ann@wa" "1000" (mkReminder "call mom" 5000 1000 false None) true)
       ann eq_refl eq_refl (Z.le_refl 5000) eq_refl eq_refl)))).
Defined.

(** C3, as stated, fails. With the transport down a non-recurring
    reminder that fires keeps its record, where a delivery would have
    deleted it, and a daily one keeps its time, where a delivery would
    have moved it one day on. *)
Lemma fire_delivery_failure_blocks_update :
  let once := setClock 5000 (exOne None) in
  let daily := setClock 5000 (exOne (Some "daily")) in
  record (run (fire 0 0) once) "ann@wa" "1000" = None
  ∧ record (run (fire 0 0) (sockDown once)) "ann@wa" "1000" =
      Some (mkReminder "call mom" 5000 1000 false None)
  ∧ (time <$> record (run (fire 0 0) daily) "ann@wa" "1000") = Some (5000 + msPerDay)
  ∧ (time <$> record (run (fire 0 0) (sockDown daily)) "ann@wa" "1000") = Some 5000.
Proof. vm_compute. done. Qed.

(** C4, as the code has it. When the job of a reminder without
    recurrence ([null], or the empty string) fires and the notification
    is delivered (user file there, transport up), the file has no record
    under that user and id afterwards. When it is not delivered (no user
    file, or the transport down), the fire path ends all the same, the
    job is used up and [reminders.json] is left as it was: the record
    stays. Either way the record is afterwards gone or what it was: the
    fire path never writes it back with [completed] set. *)
Theorem fire_nonrecurring_deletes tz w h j :
  jobs w !! h = Some j → pending j = true → jobDate j ≤ clock w →
  truthy (recurring (jobReminder j)) = false →
  let w' := run (fire tz h) w in
  (∀ ud, userFiles w !! jobUserId j = Some ud → sockUp w = true →
         record w' (jobUserId j) (jobReminderId j) = None)
  ∧ (userFiles w !! jobUserId j = None ∨ sockUp w = false →
       result (fire tz h) w = Normal tt
       ∧ remindersFile w' = remindersFile w
       ∧ live w' h = false)
  ∧ (record w' (jobUserId j) (jobReminderId j) = None
     ∨ record w' (jobUserId j) (jobReminderId j)
       = record w (jobUserId j) (jobReminderId j)).
Proof.
  intros Hj Hp Hd Hrc w'.
  set (u := jobUserId j) in *. set (id := jobReminderId j) in *.
  assert (∀ ud, userFiles w !! u = Some ud → sockUp w = true →
                record w' u id = None) as Hdel.
  { intros ud Hu Hs. subst w'.
    rewrite (fire_delivered tz w h j ud) by done. cbv zeta.
    fold u id. set (w1 := setOutbox _ _).
    unfold record at 1. cbn [remindersFile setConsole].
    destruct (record w1 u id) as [rec|] eqn:Hr.
    - apply record_Some in Hr as (recs & Hfu & Hid).
      rewrite (mark_delete tz u id _ w1 recs rec) by done.
      cbn [remindersFile setRemindersFile].
      destruct (Nat.eqb _ 0).
      + by rewrite lookup_delete_eq.
      + rewrite lookup_insert_eq. simpl. apply lookup_delete_eq.
    - by rewrite mark_absent. }
  assert (userFiles w !! u = None ∨ sockUp w = false →
          result (fire tz h) w = Normal tt
          ∧ remindersFile w' = remindersFile w
          ∧ live w' h = false) as Hkeep.
  { intros Hno. subst w'. unfold run, result, live.
    rewrite (fire_unfold tz w h j Hj Hp Hd). fold u id.
    destruct (userFiles w !! u) as [ud|] eqn:Hu.
    - destruct Hno as [|Hs]; [done|].
      rewrite (send_failed tz _ _ _ _ ud) by done.
      cbn [fst snd jobs remindersFile setConsole setJobs].
      by rewrite list_lookup_alter_eq, Hj.
    - rewrite send_no_user by done.
      cbn [fst snd jobs remindersFile setConsole setJobs].
      by rewrite list_lookup_alter_eq, Hj. }
  split; [done|]. split; [done|].
  destruct (userFiles w !! u) as [ud|] eqn:Hu.
  - destruct (sockUp w) eqn:Hs.
    + left. by apply (Hdel ud).
    + right. unfold record. by rewrite (proj1 (proj2 (Hkeep (or_intror eq_refl)))).
  - right. unfold record. by rewrite (proj1 (proj2 (Hkeep (or_introl eq_refl)))).
Qed.

Lemma fire_nonrecurring_deletes_witness :
  let w := setClock 5000 (exOne None) in
  record (run (fire 0 0) w) "ann@wa" "1000" = None.
Proof.
  exact (proj1
    (fire_nonrecurring_deletes 0 (setClock 5000 (exOne None)) 0
       (mkJob 5000 "ann@wa" "1000" (mkReminder "call mom" 5000 1000 false None) true)
       eq_refl eq_refl (Z.le_refl 5000) eq_refl) ann eq_refl eq_refl).
Defined.

(** C4, as stated, fails. The job of a non-recurring reminder fires with
    the transport down, or for a user without a user file: the fire path
    ends, the job is used up, and the record is still in the file, as it
    was. *)
Lemma fire_nonrecurring_undelivered_keeps_record :
  let r := mkReminder "call mom" 5000 1000 false None in
  let w := sockDown (setClock 5000 (exOne None)) in
  let v := setClock 5000 (run (createReminder "bob@wa" "call mom" 5000 None) exStart) in
  (live w 0 = true
   ∧ result (fire 0 0) w = Normal tt
   ∧ live (run (fire 0 0) w) 0 = false
   ∧ record (run (fire 0 0) w) "ann@wa" "1000" = Some r)
  ∧ (userFiles v !! "bob@wa" = None
     ∧ result (fire 0 0) v = Normal tt
     ∧ live (run (fire 0 0) v) 0 = false
     ∧ record (run (fire 0 0) v) "bob@wa" "1000" = Some r).
Proof. vm_compute. done. Qed.

Lemma unknown_nextTime tz kind t :
  ¬ knownRecurrence kind → nextTime tz (Some kind) t = None.
Proof.
  intros Hk. unfold nextTime.
  rewrite !bool_decide_eq_false_2; [done|..]; intros [= ->]; apply Hk;
    unfold knownRecurrence; auto.
Qed.

(** C6, as the code has it. When the job fires for a reminder whose
    recurrence is a non-empty string other than daily, weekly and monthly
    (user file there, transport up, record in the file), the record is
    kept and written back with [completed] set and its time as it was;
    the user has as many records as before, and [scheduledReminders] is
    left as it is. *)
Theorem fire_unknown_recurrence_marks_completed tz w h j ud kind rec :
  jobs w !! h = Some j → pending j = true → jobDate j ≤ clock w →
  userFiles w !! jobUserId j = Some ud → sockUp w = true →
  recurring (jobReminder j) = Some kind → kind ≠ "" → ¬ knownRecurrence kind →
  record w (jobUserId j) (jobReminderId j) = Some rec →
  let w' := run (fire tz h) w in
  record w' (jobUserId j) (jobReminderId j) = Some (withCompleted rec true)
  ∧ recordCount w' (jobUserId j) = recordCount w (jobUserId j)
  ∧ scheduledReminders w' = scheduledReminders w
  ∧ jobs w' = alter cancelled h (jobs w).
Proof.
  intros Hj Hp Hd Hu Hs Hrc Hne Hk Hrec w'. subst w'.
  rewrite (fire_delivered tz w h j ud) by done. cbv zeta.
  apply record_Some in Hrec as (recs & Hfu & Hid).
  rewrite Hrc.
  rewrite (mark_default tz _ _ _ _ recs rec)
    by (done || by apply truthy_Some || by apply unknown_nextTime).
  split_and!; [| |done|done].
  - unfold record. simpl. rewrite lookup_insert_eq. simpl. apply lookup_insert_eq.
  - unfold recordCount. simpl. rewrite lookup_insert_eq, Hfu. simpl.
    apply map_size_insert_Some. eauto.
Qed.

Lemma fire_unknown_recurrence_marks_completed_witness :
  let w := setClock 5000 (exOne (Some "yearly")) in
  record (run (fire 0 0) w) "ann@wa" "1000" =
  Some (mkReminder "call mom" 5000 1000 true (Some "yearly")).
Proof.
  refine (proj1
    (fire_unknown_recurrence_marks_completed 0 (setClock 5000 (exOne (Some "yearly"))) 0
       (mkJob 5000 "ann@wa" "1000" (mkReminder "call mom" 5000 1000 false (Some "yearly")) true)
       ann "yearly" (mkReminder "call mom" 5000 1000 false (Some "yearly"))
       eq_refl eq_refl (Z.le_refl 5000) eq_refl eq_refl eq_refl _ _ eq_refl)).
  - discriminate.
  - by intros [?|[?|?]].
Defined.

(** C6, as stated, fails. A reminder whose recurrence is the string
    yearly fires: its record is still in the file afterwards, with
    [completed] set, where a non-recurring reminder's record is gone. *)
Lemma fire_unknown_recurrence_keeps_record :
  record (run (fire 0 0) (setClock 5000 (exOne (Some "yearly")))) "ann@wa" "1000" =
    Some (mkReminder "call mom" 5000 1000 true (Some "yearly"))
  ∧ record (run (fire 0 0) (setClock 5000 (exOne None))) "ann@wa" "1000" = None.
Proof. vm_compute. done. Qed.
(** ** The next occurrence *)




(** C7, as the code has it. [scheduleReminder] refuses a time before the
    clock (no job, no entry), and registers a live job for any time not
    before it, the clock's own value included. The recovery pass of a
    process that has just started registers a job for exactly the
    records that are not completed and whose time is not before the
    clock, built from the record, and creates no other job: every job is
    the one registered under its own user and id. *)
Theorem arming_refused_only_before_now :
  (∀ w u id r,
     let w' := run (scheduleReminder u id r) w in
     (time r < clock w →
        jobs w' = jobs w ∧ scheduledReminders w' = scheduledReminders w)
     ∧ (clock w ≤ time r →
        timer w' u id = Some (mkJob (time r) u id r true)
        ∧ length (jobs w') = S (length (jobs w))))
  ∧ (∀ now file users up,
       let w' := run initializeReminderSystem (started now file users up) in
       (∀ u id j,
          timer w' u id = Some j ↔
          ∃ r, file !! u ≫= (.!! id) = Some r ∧ completed r = false ∧ now ≤ time r
               ∧ j = mkJob (time r) u id r true)
       ∧ (∀ h j, jobs w' !! h = Some j →
                 lookupJob (scheduledReminders w') (jobUserId j) (jobReminderId j)
                 = Some h)).
Proof.
  split.
  - intros w u id r w'. subst w'. unfold run. split; intros H.
    + by rewrite schedule_past.
    + rewrite schedule_due by done. simpl. split.
      * unfold timer. simpl. rewrite lookupJob_insert, decide_True by done. simpl.
        by rewrite lookup_app_r, Nat.sub_diag.
      * rewrite length_app. simpl. lia.
  - intros now file users up w'.
    destruct (initialize_Recovered now file users up) as [H1 H2]. fold w' in H1, H2.
    split; [|done].
    intros u id j. specialize (H1 u id). unfold timer. split.
    + intros Ht. apply bind_Some in Ht as (h & Hl & Hj).
      destruct (file !! u ≫= (.!! id)) as [r|]; [|congruence].
      unfold armable in H1.
      destruct (completed r) eqn:Hc; simpl in H1; [congruence|].
      destruct (Z.ltb_spec (time r) now); simpl in H1; [congruence|].
      destruct H1 as (h' & Hl' & Hj'). exists r. split_and!; [done..|].
      congruence.
    + intros (r & Hr & Hc & Hle & ->). rewrite Hr in H1.
      unfold armable in H1. rewrite Hc in H1. simpl in H1.
      destruct (Z.ltb_spec (time r) now); [lia|]. simpl in H1.
      destruct H1 as (h & -> & Hj). done.
Qed.

Lemma arming_refused_only_before_now_witness :
  let r := mkReminder "call mom" 5000 1000 false None in
  timer (run (scheduleReminder "ann@wa" "7" r) exStart) "ann@wa" "7"
  = Some (mkJob 5000 "ann@wa" "7" r true).
Proof.
  refine (proj1 (proj2 (proj1 arming_refused_only_before_now exStart "ann@wa" "7"
                          (mkReminder "call mom" 5000 1000 false None)) _)).
  simpl. lia.
Defined.

(** C7, as stated, fails when the time is the clock's value: a reminder
    due at 1000 is armed at clock 1000, by [scheduleReminder] and by the
    recovery pass alike. *)
Lemma arming_accepts_time_equal_to_now :
  let r := mkReminder "call mom" 1000 1000 false None in
  clock exStart = 1000
  ∧ timer (run (scheduleReminder "ann@wa" "7" r) exStart) "ann@wa" "7"
    = Some (mkJob 1000 "ann@wa" "7" r true)
  ∧ timer (run initializeReminderSystem
             (started 1000 {[ "ann@wa" := {[ "7" := r ]} ]} ∅ true)) "ann@wa" "7"
    = Some (mkJob 1000 "ann@wa" "7" r true).
Proof. vm_compute. done. Qed.

(** ** Creation *)

Lemma createReminder_unfold u x t c w :
  let id := pretty (clock w) in
  let r := mkReminder x t (clock w) false c in
  let w' := run (createReminder u x t c) w in
  result (createReminder u x t c) w = Normal (Some id)
  ∧ remindersFile w' = <[u := <[id := r]> (default ∅ (remindersFile w !! u))]> (remindersFile w)
  ∧ clock w' = clock w.
Proof.
  intros id r w'. subst w'.
  unfold run, result, createReminder, tryCatch, bind, readJson, dateNow, writeJson, update.
  fold id. fold r.
  set (f := <[u := _]> _).
  assert (f = <[u := <[id := r]> (default ∅ (remindersFile w !! u))]> (remindersFile w))
    as ->.
  { subst f. destruct (remindersFile w !! u) as [m|] eqn:Hu.
    - rewrite bool_decide_eq_false_2 by done. by rewrite Hu.
    - rewrite bool_decide_eq_true_2 by done.
      rewrite lookup_insert_eq. simpl. by rewrite insert_insert_eq. }
  set (w1 := setRemindersFile _ w).
  destruct (Z.lt_ge_cases (time r) (clock w1)).
  - rewrite schedule_past by done. done.
  - rewrite schedule_due by done. done.
Qed.

(** C8 at the failing input. Two calls of [createReminder] for one user
    at one clock value both return the clock's digits as the id; the
    second record takes the place of the first, which is gone without a
    trace, and the user has one record for the two creations. *)
Theorem createReminder_same_millisecond_reuses_id w u x1 t1 c1 x2 t2 c2 :
  let id := pretty (clock w) in
  let w1 := run (createReminder u x1 t1 c1) w in
  let w2 := run (createReminder u x2 t2 c2) w1 in
  result (createReminder u x1 t1 c1) w = Normal (Some id)
  ∧ record w1 u id = Some (mkReminder x1 t1 (clock w) false c1)
  ∧ result (createReminder u x2 t2 c2) w1 = Normal (Some id)
  ∧ record w2 u id = Some (mkReminder x2 t2 (clock w) false c2)
  ∧ recordCount w2 u = recordCount w1 u.
Proof.
  intros id w1 w2.
  destruct (createReminder_unfold u x1 t1 c1 w) as (Hr1 & Hf1 & Hc1).
  destruct (createReminder_unfold u x2 t2 c2 w1) as (Hr2 & Hf2 & Hc2).
  fold w1 in Hf1, Hc1. fold w2 in Hf2, Hc2. rewrite Hc1 in Hr2, Hf2. fold id in Hf1, Hf2.
  split_and!; [done| |done| |].
  - unfold record. rewrite Hf1, lookup_insert_eq. simpl. apply lookup_insert_eq.
  - unfold record. rewrite Hf2, lookup_insert_eq. simpl. apply lookup_insert_eq.
  - unfold recordCount. rewrite Hf2, lookup_insert_eq, Hf1, lookup_insert_eq. simpl.
    apply map_size_insert_Some. rewrite lookup_insert_eq. eauto.
Qed.

(** The two creations of [exTwice]: one record, two live jobs under the
    one id. *)
Lemma createReminder_same_millisecond_example :
  recordCount exTwice "ann@wa" = 1%nat
  ∧ record exTwice "ann@wa" "1000" = Some (mkReminder "water the plants" 5000 1000 false None)
  ∧ liveTimers exTwice "ann@wa" "1000" = [0%nat; 1%nat].
Proof. vm_compute. done. Qed.

(** ** The parsers *)

(** The command of the scenario, at any clock value. *)
Lemma two_hours_command_at tz DateParse now :
  parseReminderCommand tz DateParse now "in 2 hours to call mom"
  = Some (mkParsed "call mom" (now + 2 * 60 * 60 * 1000) None).
Proof. vm_compute. reflexivity. Qed.

(** C9. The command text "in 2 hours to call mom", parsed when the
    clock is 2024-03-01T10:00:00 in the host's zone, gives the text
    "call mom", the instant 2024-03-01T12:00:00 and no recurrence (a
    zone of any fixed offset). *)
Theorem parse_in_two_hours (tz : Z) DateParse :
  parseReminderCommand tz DateParse (newDate tz 2024 2 1 10 0 0 0)
                       "in 2 hours to call mom"
  = Some (mkParsed "call mom" (newDate tz 2024 2 1 12 0 0 0) None).
Proof.
  rewrite two_hours_command_at. do 2 f_equal.
  change (newDate tz 2024 2 1 10 0 0 0) with (1709287200000 - tz).
  change (newDate tz 2024 2 1 12 0 0 0) with (1709294400000 - tz).
  lia.
Qed.

(** C10. The last branch of [parseTimeString] returns what the host
    reads the string as, without comparing it with the clock: a string
    none of the four grammars matches and the host reads as an instant
    at or before the clock comes back as that instant. The today and the
    explicit-date branches compare: each returns [null] when its instant
    is not after the clock. *)
Theorem fallback_returns_past_instants tz DateParse now s :
  (∀ t, exec inPattern s = None → exec tomorrowPattern s = None →
        exec todayPattern s = None → exec dateTimePattern s = None →
        DateParse s = Some t → t ≤ now →
        parseTimeString tz DateParse now s = Some t)
  ∧ (∀ m, exec inPattern s = None → exec tomorrowPattern s = None →
          exec todayPattern s = Some m →
          setHours tz now (clockOf m 1).1 (clockOf m 1).2 0 0 ≤ now →
          parseTimeString tz DateParse now s = None)
  ∧ (∀ m, exec inPattern s = None → exec tomorrowPattern s = None →
          exec todayPattern s = None → exec dateTimePattern s = Some m →
          newDate tz (if groupTruthy m 3 then parseInt (groupText m 3)
                      else getFullYear tz now)
                  (parseInt (groupText m 1) - 1) (parseInt (groupText m 2))
                  (clockOf m 4).1 (clockOf m 4).2 0 0 ≤ now →
          parseTimeString tz DateParse now s = None).
Proof.
  split_and!.
  - intros t Hin Htom Htod Hdate Hparse _.
    unfold parseTimeString, inBranch. by rewrite Hin, Htom, Htod, Hdate.
  - intros m Hin Htom Htod Hle.
    unfold parseTimeString, inBranch. rewrite Hin, Htom, Htod.
    destruct (clockOf m 1) as [hours minutes]. simpl in Hle.
    by destruct (Z.leb_spec (setHours tz now hours minutes 0 0) now); [|lia].
  - intros m Hin Htom Htod Hdate Hle.
    unfold parseTimeString, inBranch. rewrite Hin, Htom, Htod, Hdate.
    destruct (clockOf m 4) as [hours minutes]. simpl in Hle.
    match goal with |- context [?d <=? now] => destruct (Z.leb_spec d now) end;
      [done|lia].
Qed.

Lemma fallback_returns_past_instants_witness :
  parseTimeString 0 isoDateParse (newDate 0 2024 2 1 14 0 0 0)
                  "2020-01-01T00:00:00.000Z"
  = Some (newDate 0 2020 0 1 0 0 0 0).
Proof.
  refine (proj1 (fallback_returns_past_instants 0 isoDateParse
                   (newDate 0 2024 2 1 14 0 0 0) "2020-01-01T00:00:00.000Z")
                (newDate 0 2020 0 1 0 0 0 0) _ _ _ _ _ _);
    [vm_compute; reflexivity..|].
  vm_compute. discriminate.
Defined.

(** The three branches side by side, at 2024-03-01T14:00:00: a past
    timestamp comes back, a past time of today and a past explicit date
    do not. *)
Lemma past_instants_by_branch :
  let now := newDate 0 2024 2 1 14 0 0 0 in
  parseTimeString 0 isoDateParse now "2020-01-01T00:00:00.000Z"
    = Some (newDate 0 2020 0 1 0 0 0 0)
  ∧ newDate 0 2020 0 1 0 0 0 0 < now
  ∧ parseTimeString 0 isoDateParse now "today at 1am" = None
  ∧ parseTimeString 0 isoDateParse now "1/5/2020 at 3pm" = None.
Proof. vm_compute. done. Qed.

(** ** Deleting and listing *)

Lemma deleteReminder_absent u id w :
  record w u id = None → deleteReminder u id w = (Normal false, w).
Proof.
  unfold record, deleteReminder, bind, readJson, ret.
  destruct (remindersFile w !! u) as [recs|]; [|done]. simpl. by intros ->.
Qed.

Lemma deleteReminder_present u id w recs rec :
  remindersFile w !! u = Some recs → recs !! id = Some rec →
  deleteReminder u id w =
  (Normal true,
   match lookupJob (scheduledReminders w) u id with
   | Some h =>
       setScheduledReminders
         (<[u := delete id (default ∅ (scheduledReminders w !! u))]>
            (scheduledReminders w))
         (setJobs (alter cancelled h (jobs w))
            (setRemindersFile (<[u := delete id recs]> (remindersFile w)) w))
   | None => setRemindersFile (<[u := delete id recs]> (remindersFile w)) w
   end).
Proof.
  intros Hu Hid.
  unfold deleteReminder, bind, readJson, ret, writeJson, update, cancelJob.
  rewrite Hu, Hid. simpl. by destruct (lookupJob _ _ _).
Qed.

Lemma lookupJob_delete (t : gmap string (gmap string nat)) u id u' id' :
  lookupJob (<[u := delete id (default ∅ (t !! u))]> t) u' id' =
  if decide (u' = u ∧ id' = id) then None else lookupJob t u' id'.
Proof.
  unfold lookupJob. destruct (decide (u' = u)) as [->|Hu].
  - rewrite lookup_insert_eq. simpl. destruct (decide (id' = id)) as [->|Hid].
    + rewrite lookup_delete_eq. by rewrite decide_True.
    + rewrite lookup_delete_ne by done. rewrite decide_False by (by intros [??]).
      by destruct (t !! u).
  - rewrite lookup_insert_ne by done. by rewrite decide_False by (by intros [??]).
Qed.

Lemma record_insert_delete (file : gmap string (gmap string Reminder)) u id recs u' id' :
  file !! u = Some recs →
  <[u := delete id recs]> file !! u' ≫= (.!! id') =
  if decide (u' = u ∧ id' = id) then None else file !! u' ≫= (.!! id').
Proof.
  intros Hu. destruct (decide (u' = u)) as [->|Hne].
  - rewrite lookup_insert_eq, Hu. simpl. destruct (decide (id' = id)) as [->|Hid].
    + rewrite lookup_delete_eq. by rewrite decide_True.
    + rewrite lookup_delete_ne by done. by rewrite decide_False by (by intros [??]).
  - rewrite lookup_insert_ne by done. by rewrite decide_False by (by intros [??]).
Qed.

(** X1. For a user id and a reminder id that are not names a plain
    object inherits (under such a name the source's test finds a
    built-in of the host, and not only a record of the file),
    [deleteReminder] returns [true] exactly when the file has a record
    under the user and id. Afterwards that record is absent and every
    other record is what it was; the user's entry is kept, even when the
    deleted record was its last. When there was no record, the world is
    left as it is: nothing is written, no job is cancelled. *)
Theorem deleteReminder_removes_only_that_record w u id :
  inherited u = false → inherited id = false →
  let w' := run (deleteReminder u id) w in
  result (deleteReminder u id) w = Normal (bool_decide (is_Some (record w u id)))
  ∧ (∀ u' id', record w' u' id' =
               if decide (u' = u ∧ id' = id) then None else record w u' id')
  ∧ dom (remindersFile w') = dom (remindersFile w)
  ∧ (record w u id = None → w' = w).
Proof.
  intros _ _ w'. subst w'. unfold run, result.
  destruct (record w u id) as [rec|] eqn:Hr.
  - apply record_Some in Hr as (recs & Hu & Hid).
    rewrite (deleteReminder_present u id w recs rec) by done.
    split_and!; [done| | |done].
    + intros u' id'. unfold record.
      destruct (lookupJob _ _ _); simpl; by apply record_insert_delete.
    + assert (dom (<[u := delete id recs]> (remindersFile w)) = dom (remindersFile w))
        as Hdom.
      { rewrite dom_insert_L. apply subseteq_union_1_L, singleton_subseteq_l.
        by apply elem_of_dom_2 in Hu. }
      by destruct (lookupJob _ _ _).
  - rewrite deleteReminder_absent by done. split_and!; [done| |done|done].
    intros u' id'. simpl. destruct (decide _) as [[-> ->]|]; done.
Qed.

(** X2. When [deleteReminder] deletes a record, the job the table holds
    for it is cancelled and its entry removed; the entries of the other
    reminders stay. That job running afterwards does nothing: no message
    goes out for a deleted reminder. *)
Theorem deleteReminder_disarms tz w u id rec h :
  record w u id = Some rec → lookupJob (scheduledReminders w) u id = Some h →
  let w' := run (deleteReminder u id) w in
  live w' h = false
  ∧ (∀ u' id', lookupJob (scheduledReminders w') u' id' =
               if decide (u' = u ∧ id' = id) then None
               else lookupJob (scheduledReminders w) u' id')
  ∧ (∀ t, fire tz h (setClock t w') = (Normal tt, setClock t w')).
Proof.
  intros Hr Hl w'. subst w'. unfold run.
  apply record_Some in Hr as (recs & Hu & Hid).
  rewrite (deleteReminder_present u id w recs rec) by done. rewrite Hl. simpl.
  assert (live (setScheduledReminders
                  (<[u := delete id (default ∅ (scheduledReminders w !! u))]>
                     (scheduledReminders w))
                  (setJobs (alter cancelled h (jobs w))
                     (setRemindersFile (<[u := delete id recs]> (remindersFile w)) w))) h
          = false) as Hlive.
  { unfold live. simpl. rewrite list_lookup_alter_eq. by destruct (jobs w !! h). }
  split_and!; [done| |].
  - intros u' id'. apply lookupJob_delete.
  - intros t. unfold live in Hlive. unfold fire. cbn [jobs setClock].
    destruct (jobs _ !! h) as [j|]; [|done]. by rewrite Hlive.
Qed.

Lemma deleteReminder_disarms_witness :
  let w' := run (deleteReminder "ann@wa" "1000") (exOne None) in
  fire 0 0 (setClock 5000 w') = (Normal tt, setClock 5000 w').
Proof.
  exact (proj2 (proj2
    (deleteReminder_disarms 0 (exOne None) "ann@wa" "1000"
       (mkReminder "call mom" 5000 1000 false None) 0%nat eq_refl eq_refl)) 5000).
Defined.

Lemma deleteReminder_removes_only_that_record_witness :
  inherited "ann@wa" = false ∧ inherited "7" = false
  ∧ run (deleteReminder "ann@wa" "7") (exOne None) = exOne None.
Proof.
  split; [reflexivity|]. split; [reflexivity|].
  exact (proj2 (proj2 (proj2
    (deleteReminder_removes_only_that_record (exOne None) "ann@wa" "7"
       eq_refl eq_refl))) eq_refl).
Defined.

Lemma insertByTime_Permutation x l : insertByTime x l ≡ₚ x :: l.
Proof.
  induction l as [|y l IH]; simpl; [done|].
  destruct (time x.2 <=? time y.2); [done|].
  rewrite IH. apply Permutation_swap.
Qed.

Lemma sortByTime_Permutation l : sortByTime l ≡ₚ l.
Proof.
  induction l as [|x l IH]; simpl; [done|].
  by rewrite insertByTime_Permutation, IH.
Qed.

Lemma insertByTime_sorted x l :
  StronglySorted byTime l → StronglySorted byTime (insertByTime x l).
Proof.
  induction 1 as [|y l Hl IH Hy]; simpl.
  - repeat constructor.
  - destruct (Z.leb_spec (time x.2) (time y.2)) as [Hle|Hlt].
    + constructor; [by constructor|].
      constructor; [done|].
      eapply Forall_impl; [exact Hy|]. unfold byTime. intros z Hz. lia.
    + constructor; [done|].
      rewrite insertByTime_Permutation. constructor; [|done].
      unfold byTime. lia.
Qed.

Lemma sortByTime_sorted l : StronglySorted byTime (sortByTime l).
Proof.
  induction l as [|x l IH]; simpl; [constructor|]. by apply insertByTime_sorted.
Qed.

(** The list [listReminders] returns, as a function of the file. *)
Lemma listReminders_unfold u w :
  listReminders u w =
  (Normal (match remindersFile w !! u with
           | Some recs =>
               sortByTime (List.filter (λ e, negb (completed e.2)) (map_to_list recs))
           | None => []
           end), w).
Proof.
  unfold listReminders, bind, readJson, ret. by destruct (remindersFile w !! u).
Qed.

(** Membership in the list [listReminders] computes. *)
Lemma listed_iff w u id r :
  (id, r) ∈ match remindersFile w !! u with
            | Some recs =>
                sortByTime (List.filter (λ e, negb (completed e.2)) (map_to_list recs))
            | None => []
            end
  ↔ record w u id = Some r ∧ completed r = false.
Proof.
  unfold record. destruct (remindersFile w !! u) as [recs|]; simpl.
  - rewrite sortByTime_Permutation.
    rewrite list_elem_of_In, filter_In, <- list_elem_of_In, elem_of_map_to_list.
    simpl. by rewrite negb_true_iff.
  - split; [by intros ?%elem_of_nil|by intros [? _]].
Qed.

(** X3. [listReminders] changes nothing and returns the user's reminders
    that are not completed, each once, in ascending order of time; a
    user without an entry gets the empty list. *)
Theorem listReminders_sorted_active w u :
  ∃ l, listReminders u w = (Normal l, w)
       ∧ StronglySorted byTime l
       ∧ (∀ id r, (id, r) ∈ l ↔ record w u id = Some r ∧ completed r = false)
       ∧ NoDup l.*1.
Proof.
  rewrite listReminders_unfold. eexists. split; [done|].
  split; [|split; [intros id r; apply listed_iff|]].
  all: destruct (remindersFile w !! u) as [recs|]; simpl.
  - apply sortByTime_sorted.
  - constructor.
  - rewrite sortByTime_Permutation.
    eapply NoDup_fmap_fst; [|apply NoDup_ListNoDup, List.NoDup_filter, NoDup_ListNoDup,
                              NoDup_map_to_list].
    intros id r1 r2.
    rewrite !list_elem_of_In, !filter_In, <- !list_elem_of_In, !elem_of_map_to_list.
    intros [H1 _] [H2 _]. congruence.
  - constructor.
Qed.

(** X4. A reminder just created is on the user's list, under the id
    [createReminder] returned and with the text, time and recurrence
    given. *)
Theorem created_reminder_is_listed w u x t c :
  let w' := run (createReminder u x t c) w in
  ∃ l, listReminders u w' = (Normal l, w')
       ∧ result (createReminder u x t c) w = Normal (Some (pretty (clock w)))
       ∧ (pretty (clock w), mkReminder x t (clock w) false c) ∈ l.
Proof.
  intros w'.
  destruct (createReminder_unfold u x t c w) as (Hres & Hfile & _). fold w' in Hfile.
  rewrite listReminders_unfold. eexists. split_and!; [done..|].
  apply listed_iff. split; [|done].
  unfold record. rewrite Hfile, lookup_insert_eq. simpl. apply lookup_insert_eq.
Qed.

(** ** More of the fire path *)

Section FirePath.
Variable tz : Zone.

(** The world after [fire], by the branch taken. *)
Lemma fire_cases w h :
  run (fire tz h) w =
  match jobs w !! h with
  | Some j =>
      if pending j && (jobDate j <=? clock w) then
        let u := jobUserId j in
        let id := jobReminderId j in
        let w1 := setJobs (alter cancelled h (jobs w)) w in
        match userFiles w !! u with
        | None => setConsole (console w ++ [LogUserNotFound u]) w1
        | Some ud =>
            if sockUp w then
              let w2 := run (markReminderAsCompleted tz u id (recurring (jobReminder j)))
                          (setOutbox (outbox w ++ [(u, notificationText ud (jobReminder j))])
                             w1) in
              setConsole (console w2 ++ [LogSent u id]) w2
            else setConsole (console w ++ [ErrSending u id]) w1
        end
      else w
  | None => w
  end.
Proof.
  destruct (jobs w !! h) as [j|] eqn:Hj; [|by unfold run, fire; rewrite Hj].
  destruct (pending j && (jobDate j <=? clock w)) eqn:Hp;
    [|by unfold run, fire; rewrite Hj, Hp].
  apply andb_true_iff in Hp as [Hp Hd]. apply Z.leb_le in Hd.
  cbv zeta. destruct (userFiles w !! jobUserId j) as [ud|] eqn:Hu.
  - destruct (sockUp w) eqn:Hs.
    + by rewrite (fire_delivered tz w h j ud).
    + unfold run. rewrite (fire_unfold tz w h j Hj Hp Hd).
      by rewrite (send_failed tz _ _ _ _ ud).
  - unfold run. rewrite (fire_unfold tz w h j Hj Hp Hd). by rewrite send_no_user.
Qed.

(** [markReminderAsCompleted] leaves the records of the other reminders. *)
Lemma mark_record_other u id rc w u' id' :
  ¬ (u' = u ∧ id' = id) →
  record (run (markReminderAsCompleted tz u id rc) w) u' id' = record w u' id'.
Proof.
  intros Hne.
  destruct (record w u id) as [rec|] eqn:Hr; [|by rewrite mark_absent].
  apply record_Some in Hr as (recs & Hu & Hid).
  assert (∀ r', <[u := <[id := r']> recs]> (remindersFile w) !! u' ≫= (.!! id')
                = remindersFile w !! u' ≫= (.!! id')) as Hins.
  { intros r'. destruct (decide (u' = u)) as [->|Hu'].
    - rewrite lookup_insert_eq, Hu. simpl. rewrite lookup_insert_ne; [done|].
      intros <-. by apply Hne.
    - by rewrite lookup_insert_ne. }
  destruct (truthy rc) eqn:Ht.
  - destruct (nextTime tz rc (time rec)) as [next|] eqn:Hn.
    + rewrite (mark_advance tz u id rc w recs rec next) by done.
      unfold record. cbn [remindersFile setRemindersFile]. by rewrite Hins.
    + rewrite (mark_default tz u id rc w recs rec) by done.
      unfold record. cbn [remindersFile setRemindersFile]. by rewrite Hins.
  - rewrite (mark_delete tz u id rc w recs rec) by done.
    unfold record. cbn [remindersFile setRemindersFile].
    destruct (Nat.eqb (size (delete id recs)) 0) eqn:Hsz.
    + apply Nat.eqb_eq, map_size_empty_iff in Hsz.
      destruct (decide (u' = u)) as [->|Hu'].
      * rewrite lookup_delete_eq, Hu. simpl.
        assert (id' ≠ id) as Hid' by (intros ->; by apply Hne).
        rewrite <- (lookup_delete_ne recs id id') by done. by rewrite Hsz.
      * by rewrite lookup_delete_ne.
    + rewrite record_insert_delete by done. by rewrite decide_False.
Qed.

(** [markReminderAsCompleted] creates no job and makes none pending. *)
Lemma mark_live u id rc w k :
  live (run (markReminderAsCompleted tz u id rc) w) k = true → live w k = true.
Proof.
  destruct (record w u id) as [rec|] eqn:Hr; [|by rewrite mark_absent].
  apply record_Some in Hr as (recs & Hu & Hid).
  destruct (truthy rc) eqn:Ht.
  - destruct (nextTime tz rc (time rec)) as [next|] eqn:Hn.
    + rewrite (mark_advance tz u id rc w recs rec next) by done.
      unfold live. destruct (lookupJob _ _ _); [|done].
      cbn [jobs setRemindersFile setJobs]. intros H.
      by apply live_alter_cancelled in H as [? _].
    + by rewrite (mark_default tz u id rc w recs rec).
  - rewrite (mark_delete tz u id rc w recs rec) by done.
    unfold live. destruct (lookupJob _ _ _); [|done].
    cbn [jobs setRemindersFile setJobs setScheduledReminders]. intros H.
    by apply live_alter_cancelled in H as [? _].
Qed.

(** [markReminderAsCompleted] leaves the user files and the clock. *)
Lemma mark_env u id rc w :
  userFiles (run (markReminderAsCompleted tz u id rc) w) = userFiles w
  ∧ clock (run (markReminderAsCompleted tz u id rc) w) = clock w.
Proof.
  destruct (record w u id) as [rec|] eqn:Hr; [|by rewrite mark_absent].
  apply record_Some in Hr as (recs & Hu & Hid).
  destruct (truthy rc) eqn:Ht.
  - destruct (nextTime tz rc (time rec)) as [next|] eqn:Hn.
    + rewrite (mark_advance tz u id rc w recs rec next) by done.
      by destruct (lookupJob _ _ _).
    + by rewrite (mark_default tz u id rc w recs rec).
  - rewrite (mark_delete tz u id rc w recs rec) by done.
    by destruct (lookupJob _ _ _).
Qed.

(** X5. Whatever branch it takes, a job that fires leaves the record of
    every other reminder, of the same user or another, as it was, and
    the user files and the clock too. *)
Theorem fire_touches_only_its_record w h j u' id' :
  jobs w !! h = Some j → ¬ (u' = jobUserId j ∧ id' = jobReminderId j) →
  let w' := run (fire tz h) w in
  record w' u' id' = record w u' id'
  ∧ userFiles w' = userFiles w
  ∧ clock w' = clock w.
Proof.
  intros Hj Hne w'. subst w'. rewrite fire_cases, Hj.
  destruct (pending j && _); [|done]. cbv zeta.
  destruct (userFiles w !! jobUserId j) as [ud|]; [|done].
  destruct (sockUp w); [|done].
  set (w1 := setOutbox _ _).
  assert (∀ c w0, record (setConsole c w0) u' id' = record w0 u' id') as Hc by done.
  rewrite Hc, (mark_record_other _ _ _ w1 u' id' Hne).
  cbn [userFiles clock setConsole].
  by destruct (mark_env (jobUserId j) (jobReminderId j) (recurring (jobReminder j)) w1)
    as [-> ->].
Qed.

(** No branch of [fire] creates a job or makes one pending, and the job
    that ran is used up. *)
Lemma fire_live w h k :
  live (run (fire tz h) w) k = true → live w k = true.
Proof.
  rewrite fire_cases. destruct (jobs w !! h) as [j|] eqn:Hj; [|done].
  destruct (pending j && _); [|done]. cbv zeta.
  assert (live (setJobs (alter cancelled h (jobs w)) w) k = true → live w k = true)
    as Hused.
  { unfold live. cbn [jobs setJobs]. intros H.
    by apply live_alter_cancelled in H as [? _]. }
  destruct (userFiles w !! jobUserId j) as [ud|]; [|exact Hused].
  destruct (sockUp w); [|exact Hused].
  intros H. apply Hused.
  assert (∀ w0 c, live (setConsole c w0) k = live w0 k) as Hc by done.
  rewrite Hc in H. apply mark_live in H. exact H.
Qed.

(** The job that ran is used up. *)
Lemma fire_uses_up w h j :
  jobs w !! h = Some j → pending j && (jobDate j <=? clock w) = true →
  live (run (fire tz h) w) h = false.
Proof.
  intros Hj Hp. rewrite fire_cases, Hj, Hp. cbv zeta.
  assert (live (setJobs (alter cancelled h (jobs w)) w) h = false) as Hused.
  { unfold live. cbn [jobs setJobs]. by rewrite list_lookup_alter_eq, Hj. }
  destruct (userFiles w !! jobUserId j) as [ud|]; [|exact Hused].
  destruct (sockUp w); [|exact Hused].
  match goal with |- live ?w0 h = false => destruct (live w0 h) eqn:Hl end; [|done].
  assert (∀ w0 c, live (setConsole c w0) h = live w0 h) as Hc by done.
  rewrite Hc in Hl. apply mark_live in Hl.
  assert (∀ w0 o, live (setOutbox o w0) h = live w0 h) as Ho by done.
  rewrite Ho in Hl. congruence.
Qed.

(** X6. A job runs once: the jobs pending after [fire] were pending
    before, so no branch of the fire path arms anything, and a second
    [fire] of the same job changes nothing, in particular sends
    nothing. *)
Theorem fire_runs_a_job_once w h :
  let w' := run (fire tz h) w in
  (∀ k, live w' k = true → live w k = true)
  ∧ run (fire tz h) w' = w'.
Proof.
  intros w'. split; [intros k; apply fire_live|].
  destruct (jobs w !! h) as [j|] eqn:Hj.
  - destruct (pending j && (jobDate j <=? clock w)) eqn:Hp.
    + pose proof (fire_uses_up w h j Hj Hp) as Hl. fold w' in Hl.
      rewrite (fire_cases w'). unfold live in Hl.
      destruct (jobs w' !! h) as [j'|]; [|done]. by rewrite Hl.
    + assert (w' = w) as -> by (subst w'; by rewrite fire_cases, Hj, Hp).
      by rewrite fire_cases, Hj, Hp.
  - assert (w' = w) as -> by (subst w'; by rewrite fire_cases, Hj).
    by rewrite fire_cases, Hj.
Qed.

End FirePath.

Lemma fire_touches_only_its_record_witness :
  let w := setClock 5000 (exOne None) in
  record (run (fire 0 0) w) "ann@wa" "7" = record w "ann@wa" "7".
Proof.
  refine (proj1 (fire_touches_only_its_record 0 (setClock 5000 (exOne None)) 0
                   (mkJob 5000 "ann@wa" "1000"
                      (mkReminder "call mom" 5000 1000 false None) true)
                   "ann@wa" "7" eq_refl _)).
  simpl. by intros [_ ?].
Defined.


(** X7. When a job fires and the user has no user file, nothing is sent
    and the file, the table and the outbox are as they were; the job is
    used up all the same, so the reminder stays in the file with no
    timer to deliver it. *)
Theorem fire_without_user_file_drops_silently tz w h j :
  jobs w !! h = Some j → pending j = true → jobDate j ≤ clock w →
  userFiles w !! jobUserId j = None →
  let w' := run (fire tz h) w in
  outbox w' = outbox w
  ∧ remindersFile w' = remindersFile w
  ∧ scheduledReminders w' = scheduledReminders w
  ∧ live w' h = false
  ∧ console w' = console w ++ [LogUserNotFound (jobUserId j)].
Proof.
  intros Hj Hp Hd Hu w'. subst w'. rewrite fire_cases, Hj. cbv zeta.
  rewrite Hp, Hu. destruct (Z.leb_spec (jobDate j) (clock w)); [|lia].
  cbn [andb outbox remindersFile scheduledReminders console setConsole setJobs].
  split_and!; [done..| |done].
  unfold live. cbn [jobs setConsole setJobs]. by rewrite list_lookup_alter_eq, Hj.
Qed.

Lemma fire_without_user_file_drops_silently_witness :
  let w := setClock 5000 (run (createReminder "bob@wa" "call mom" 5000 None) exStart) in
  outbox (run (fire 0 0) w) = outbox w.
Proof.
  exact (proj1
    (fire_without_user_file_drops_silently 0
       (setClock 5000 (run (createReminder "bob@wa" "call mom" 5000 None) exStart)) 0
       (mkJob 5000 "bob@wa" "1000" (mkReminder "call mom" 5000 1000 false None) true)
       eq_refl eq_refl (Z.le_refl 5000) eq_refl)).
Defined.

(** X8. A job whose record is no longer in the file still delivers: the
    message built from the captured reminder goes out, and the file and
    the table are left as they were. *)
Theorem fire_delivers_without_record tz w h j ud :
  jobs w !! h = Some j → pending j = true → jobDate j ≤ clock w →
  userFiles w !! jobUserId j = Some ud → sockUp w = true →
  record w (jobUserId j) (jobReminderId j) = None →
  let w' := run (fire tz h) w in
  outbox w' = outbox w ++ [(jobUserId j, notificationText ud (jobReminder j))]
  ∧ remindersFile w' = remindersFile w
  ∧ scheduledReminders w' = scheduledReminders w.
Proof.
  intros Hj Hp Hd Hu Hs Hr w'. subst w'.
  rewrite (fire_delivered tz w h j ud) by done. cbv zeta.
  by rewrite mark_absent.
Qed.

Lemma fire_delivers_without_record_witness :
  let w := run (fire 0 1) (setClock 5000 exTwice) in
  outbox (run (fire 0 0) w) =
  outbox w ++ [("ann@wa", notificationText ann (mkReminder "call mom" 5000 1000 false None))].
Proof.
  exact (proj1
    (fire_delivers_without_record 0 (run (fire 0 1) (setClock 5000 exTwice)) 0
       (mkJob 5000 "ann@wa" "1000" (mkReminder "call mom" 5000 1000 false None) true)
       ann eq_refl eq_refl (Z.le_refl 5000) eq_refl eq_refl eq_refl)).
Defined.

(** X9. When the job of a reminder without recurrence fires and delivers
    (record in the file), the user's other reminders stay, the user's
    entry goes exactly when the reminder was the user's last, and the
    table has no entry for the reminder any more. *)
Theorem fire_nonrecurring_cleans_up tz w h j ud recs rec :
  jobs w !! h = Some j → pending j = true → jobDate j ≤ clock w →
  userFiles w !! jobUserId j = Some ud → sockUp w = true →
  truthy (recurring (jobReminder j)) = false →
  remindersFile w !! jobUserId j = Some recs → recs !! jobReminderId j = Some rec →
  let w' := run (fire tz h) w in
  remindersFile w' !! jobUserId j =
    (if decide (delete (jobReminderId j) recs = ∅) then None
     else Some (delete (jobReminderId j) recs))
  ∧ (∀ u', u' ≠ jobUserId j → remindersFile w' !! u' = remindersFile w !! u')
  ∧ lookupJob (scheduledReminders w') (jobUserId j) (jobReminderId j) = None.
Proof.
  intros Hj Hp Hd Hu Hs Hrc Hfu Hid w'. subst w'.
  rewrite (fire_delivered tz w h j ud) by done. cbv zeta.
  set (u := jobUserId j) in *. set (id := jobReminderId j) in *.
  set (w1 := setOutbox _ _).
  rewrite (mark_delete tz u id _ w1 recs rec) by done.
  cbn [remindersFile scheduledReminders setConsole setRemindersFile].
  split_and!.
  - destruct (Nat.eqb (size (delete id recs)) 0) eqn:Hsz.
    + apply Nat.eqb_eq, map_size_empty_iff in Hsz.
      rewrite decide_True by done. apply lookup_delete_eq.
    + apply Nat.eqb_neq in Hsz. rewrite map_size_empty_iff in Hsz.
      rewrite decide_False by done. apply lookup_insert_eq.
  - intros u' Hne. destruct (Nat.eqb _ 0).
    + by rewrite lookup_delete_ne.
    + by rewrite lookup_insert_ne.
  - destruct (lookupJob (scheduledReminders w1) u id) as [h0|] eqn:Hl.
    + cbn [scheduledReminders setScheduledReminders].
      rewrite lookupJob_delete. by rewrite decide_True.
    + done.
Qed.

Lemma fire_nonrecurring_cleans_up_witness :
  remindersFile (run (fire 0 0) (setClock 5000 (exOne None))) !! "ann@wa" = None.
Proof.
  exact (proj1
    (fire_nonrecurring_cleans_up 0 (setClock 5000 (exOne None)) 0
       (mkJob 5000 "ann@wa" "1000" (mkReminder "call mom" 5000 1000 false None) true)
       ann {[ "1000" := mkReminder "call mom" 5000 1000 false None ]}
       (mkReminder "call mom" 5000 1000 false None)
       eq_refl eq_refl (Z.le_refl 5000) eq_refl eq_refl eq_refl eq_refl eq_refl)).
Defined.

(** ** More of creation and recovery *)

(** The world [createReminder] leaves: the record written, then
    [scheduleReminder] on it. *)
Lemma createReminder_world u x t c w :
  let id := pretty (clock w) in
  let r := mkReminder x t (clock w) false c in
  createReminder u x t c w =
  (Normal (Some id),
   run (scheduleReminder u id r)
     (setRemindersFile
        (<[u := <[id := r]> (default ∅ (remindersFile w !! u))]> (remindersFile w)) w)).
Proof.
  intros id r.
  unfold run, createReminder, tryCatch, bind, readJson, dateNow, writeJson, update.
  fold id. fold r.
  set (f := <[u := _]> _).
  assert (f = <[u := <[id := r]> (default ∅ (remindersFile w !! u))]> (remindersFile w))
    as ->.
  { subst f. destruct (remindersFile w !! u) as [m|] eqn:Hu.
    - rewrite bool_decide_eq_false_2 by done. by rewrite Hu.
    - rewrite bool_decide_eq_true_2 by done.
      rewrite lookup_insert_eq. simpl. by rewrite insert_insert_eq. }
  set (w1 := setRemindersFile _ w).
  destruct (Z.lt_ge_cases (time r) (clock w1)).
  - by rewrite schedule_past.
  - by rewrite schedule_due.
Qed.

Lemma record_insert_insert (file : gmap string (gmap string Reminder)) u id r u' id' :
  <[u := <[id := r]> (default ∅ (file !! u))]> file !! u' ≫= (.!! id') =
  if decide (u' = u ∧ id' = id) then Some r else file !! u' ≫= (.!! id').
Proof.
  destruct (decide (u' = u)) as [->|Hne].
  - rewrite lookup_insert_eq. simpl. destruct (decide (id' = id)) as [->|Hid].
    + rewrite lookup_insert_eq. by rewrite decide_True.
    + rewrite lookup_insert_ne by done. rewrite decide_False by (by intros [??]).
      by destruct (file !! u).
  - rewrite lookup_insert_ne by done. by rewrite decide_False by (by intros [??]).
Qed.

(** A record the recovery loop skips has no timer after the start. *)
Lemma initialize_no_timer now file users up u id r :
  file !! u ≫= (.!! id) = Some r → completed r = true ∨ time r < now →
  timer (run initializeReminderSystem (started now file users up)) u id = None.
Proof.
  intros Hr Hskip.
  destruct (initialize_Recovered now file users up) as [H1 _].
  specialize (H1 u id). rewrite Hr in H1.
  assert (armable now r = false) as Ha.
  { unfold armable. destruct Hskip as [->|Hlt]; [done|].
    destruct (Z.ltb_spec (time r) now); [|lia]. by rewrite orb_true_r. }
  rewrite Ha in H1. unfold timer. by rewrite H1.
Qed.

(** X10. [createReminder] with a time before the clock still writes the
    record and returns its id, but creates no job and no table entry;
    and no later start of the process arms it: the reminder stays in the
    file and is never delivered. *)
Theorem createReminder_in_the_past_is_never_armed w u x t c :
  t < clock w →
  let id := pretty (clock w) in
  let w' := run (createReminder u x t c) w in
  result (createReminder u x t c) w = Normal (Some id)
  ∧ record w' u id = Some (mkReminder x t (clock w) false c)
  ∧ jobs w' = jobs w
  ∧ scheduledReminders w' = scheduledReminders w
  ∧ (∀ now users up,
       clock w ≤ now →
       timer (run initializeReminderSystem (started now (remindersFile w') users up)) u id
       = None).
Proof.
  intros Ht id w'. subst w'. unfold run, result.
  rewrite createReminder_world. fold id. cbn [fst snd].
  unfold run. rewrite schedule_past by done. cbn [snd].
  assert (record (setConsole
            (console (setRemindersFile
               (<[u := <[id := mkReminder x t (clock w) false c]>
                         (default ∅ (remindersFile w !! u))]> (remindersFile w)) w)
             ++ [LogSkipPast id u])
            (setRemindersFile
               (<[u := <[id := mkReminder x t (clock w) false c]>
                         (default ∅ (remindersFile w !! u))]> (remindersFile w)) w)) u id
          = Some (mkReminder x t (clock w) false c)) as Hrec.
  { unfold record. cbn [remindersFile setConsole setRemindersFile].
    rewrite record_insert_insert. by rewrite decide_True. }
  split_and!; [done..|].
  intros now users up Hnow.
  apply (initialize_no_timer now _ users up u id (mkReminder x t (clock w) false c));
    [exact Hrec|]. right. simpl. lia.
Qed.

Lemma createReminder_in_the_past_is_never_armed_witness :
  jobs (run (createReminder "ann@wa" "call mom" 500 None) exStart) = jobs exStart.
Proof.
  refine (proj1 (proj2 (proj2
    (createReminder_in_the_past_is_never_armed exStart "ann@wa" "call mom" 500 None _)))).
  simpl. lia.
Defined.

(** X11. [createReminder] with a time not before the clock leaves the
    file and the table in step: the record is in the file, and the table
    holds for it a pending job at the record's time, built from that
    record; the records and the table entries of all other reminders are
    what they were, and nothing is sent. *)
Theorem createReminder_arms_what_it_stores w u x t c :
  clock w ≤ t →
  let id := pretty (clock w) in
  let r := mkReminder x t (clock w) false c in
  let w' := run (createReminder u x t c) w in
  record w' u id = Some r
  ∧ timer w' u id = Some (mkJob (time r) u id r true)
  ∧ (∀ u' id', ¬ (u' = u ∧ id' = id) →
       record w' u' id' = record w u' id'
       ∧ lookupJob (scheduledReminders w') u' id' = lookupJob (scheduledReminders w) u' id')
  ∧ outbox w' = outbox w.
Proof.
  intros Ht id r w'. subst w'. unfold run at 1 2 3 4 5.
  rewrite createReminder_world. fold id r. cbn [snd].
  unfold run. rewrite schedule_due by done. cbn [snd].
  split_and!.
  - unfold record. cbn [remindersFile setConsole setScheduledReminders setJobs setRemindersFile].
    rewrite record_insert_insert. by rewrite decide_True.
  - unfold timer.
    cbn [scheduledReminders jobs setConsole setScheduledReminders setJobs setRemindersFile].
    rewrite lookupJob_insert, decide_True by done. simpl.
    by rewrite lookup_app_r, Nat.sub_diag.
  - intros u' id' Hne. split.
    + unfold record.
      cbn [remindersFile setConsole setScheduledReminders setJobs setRemindersFile].
      rewrite record_insert_insert. by rewrite decide_False.
    + cbn [scheduledReminders setConsole setScheduledReminders setJobs setRemindersFile].
      rewrite lookupJob_insert. by rewrite decide_False.
  - done.
Qed.

Lemma createReminder_arms_what_it_stores_witness :
  timer (exOne None) "ann@wa" "1000"
  = Some (mkJob 5000 "ann@wa" "1000" (mkReminder "call mom" 5000 1000 false None) true).
Proof.
  refine (proj1 (proj2
    (createReminder_arms_what_it_stores exStart "ann@wa" "call mom" 5000 None _))).
  simpl. lia.
Defined.

(** X12. Creating a reminder and deleting it under the id returned
    leaves every other record as it was and no record under that id; the
    job created for it is cancelled: the jobs pending afterwards were
    pending before the creation. *)
Theorem create_then_delete w u x t c :
  let id := pretty (clock w) in
  let w1 := run (createReminder u x t c) w in
  let w2 := run (deleteReminder u id) w1 in
  result (deleteReminder u id) w1 = Normal true
  ∧ (∀ u' id', record w2 u' id' =
               if decide (u' = u ∧ id' = id) then None else record w u' id')
  ∧ (∀ k, live w2 k = true → live w k = true).
Proof.
  intros id w1 w2.
  set (r := mkReminder x t (clock w) false c).
  set (f := <[u := <[id := r]> (default ∅ (remindersFile w !! u))]> (remindersFile w)).
  assert (remindersFile w1 = f) as Hf1.
  { subst w1. unfold run. rewrite createReminder_world. cbn [snd]. fold id r f.
    destruct (Z.lt_ge_cases t (clock w)).
    - unfold run. by rewrite schedule_past.
    - unfold run. by rewrite schedule_due. }
  assert (f !! u = Some (<[id := r]> (default ∅ (remindersFile w !! u)))) as Hfu
    by apply lookup_insert_eq.
  pose proof (deleteReminder_present u id w1
                (<[id := r]> (default ∅ (remindersFile w !! u))) r) as Hdel.
  rewrite Hf1 in Hdel. specialize (Hdel Hfu (lookup_insert_eq _ _ _)).
  subst w2. unfold run, result. rewrite Hdel. cbn [fst snd].
  split_and!; [done| |].
  - intros u' id'. unfold record.
    assert (∀ w0, remindersFile
              match lookupJob (scheduledReminders w1) u id with
              | Some h =>
                  setScheduledReminders
                    (<[u := delete id (default ∅ (scheduledReminders w1 !! u))]>
                       (scheduledReminders w1))
                    (setJobs (alter cancelled h (jobs w1)) (setRemindersFile w0 w1))
              | None => setRemindersFile w0 w1
              end = w0) as -> by (intros; by destruct (lookupJob _ _ _)).
    rewrite record_insert_delete by done.
    destruct (decide _) as [|Hne]; [done|].
    subst f. rewrite record_insert_insert. by rewrite decide_False.
  - intros k.
    destruct (Z.lt_ge_cases t (clock w)) as [Hlt|Hge].
    + assert (jobs w1 = jobs w ∧ scheduledReminders w1 = scheduledReminders w)
        as [Hj Hs].
      { subst w1. unfold run. rewrite createReminder_world. cbn [snd]. fold id r f.
        unfold run. by rewrite schedule_past. }
      unfold live. destruct (lookupJob _ _ _);
        cbn [jobs setScheduledReminders setJobs setRemindersFile]; rewrite Hj; [|done].
      intros H. by apply live_alter_cancelled in H as [? _].
    + assert (jobs w1 = jobs w ++ [mkJob t u id r true]
              ∧ lookupJob (scheduledReminders w1) u id = Some (length (jobs w)))
        as [Hj Hs].
      { subst w1. unfold run. rewrite createReminder_world. cbn [snd]. fold id r f.
        unfold run. rewrite schedule_due by done.
        cbn [snd jobs scheduledReminders setConsole setScheduledReminders setJobs
             setRemindersFile].
        split; [done|]. rewrite lookupJob_insert. by rewrite decide_True. }
      rewrite Hs. unfold live.
      cbn [jobs setScheduledReminders setJobs setRemindersFile]. rewrite Hj.
      intros H. apply live_alter_cancelled in H as [H Hk].
      destruct (decide (k < length (jobs w))%nat) as [Hlt|Hnlt].
      * by rewrite lookup_app_l in H.
      * rewrite lookup_app_r in H by lia.
        destruct (k - length (jobs w))%nat as [|n] eqn:Hn; [lia|].
        simpl in H. by destruct n.
Qed.

(** The records after the non-recurring branch has written the file. *)
Lemma record_cleanup (file : gmap string (gmap string Reminder)) u id recs u' id' :
  file !! u = Some recs →
  (if Nat.eqb (size (delete id recs)) 0 then delete u file
   else <[u := delete id recs]> file) !! u' ≫= (.!! id') =
  if decide (u' = u ∧ id' = id) then None else file !! u' ≫= (.!! id').
Proof.
  intros Hu. destruct (Nat.eqb _ 0) eqn:Hsz; [|by apply record_insert_delete].
  apply Nat.eqb_eq, map_size_empty_iff in Hsz.
  destruct (decide (u' = u)) as [->|Hne].
  - rewrite lookup_delete_eq, Hu. simpl.
    destruct (decide (id' = id)) as [->|Hid].
    + by rewrite decide_True.
    + rewrite decide_False by (by intros [??]).
      rewrite <- (lookup_delete_ne recs id id') by done. by rewrite Hsz.
  - rewrite lookup_delete_ne by done. by rewrite decide_False by (by intros [??]).
Qed.

(** X13. The whole life of a one-off reminder. Created for a time not
    before the clock, then fired when the clock reaches that time (user
    file there, transport up): one message with the reminder's text goes
    out, and afterwards the reminder has no record, no table entry and
    no live job, while all other records are what they were before the
    creation. *)
Theorem reminder_lifecycle tz w u x t c ud :
  clock w ≤ t → truthy c = false →
  userFiles w !! u = Some ud → sockUp w = true →
  let id := pretty (clock w) in
  let r := mkReminder x t (clock w) false c in
  let w1 := run (createReminder u x t c) w in
  let h := length (jobs w) in
  let w2 := run (fire tz h) (setClock t w1) in
  outbox w2 = outbox w ++ [(u, notificationText ud r)]
  ∧ (∀ u' id', record w2 u' id' =
               if decide (u' = u ∧ id' = id) then None else record w u' id')
  ∧ lookupJob (scheduledReminders w2) u id = None
  ∧ live w2 h = false.
Proof.
  intros Ht Hc Hu Hs id r w1 h w2.
  set (recs := <[id := r]> (default ∅ (remindersFile w !! u))).
  set (f := <[u := recs]> (remindersFile w)).
  set (T := <[u := <[id := h]> (default ∅ (scheduledReminders w !! u))]>
              (scheduledReminders w)).
  assert (w1 = setConsole (console w ++ [LogScheduled id u t])
                 (setScheduledReminders T
                    (setJobs (jobs w ++ [mkJob t u id r true]) (setRemindersFile f w))))
    as Hw1.
  { subst w1. unfold run. rewrite createReminder_world. cbn [snd]. fold id r recs f.
    unfold run. by rewrite schedule_due. }
  assert (jobs (setClock t w1) !! h = Some (mkJob t u id r true)) as Hj.
  { rewrite Hw1. cbn [jobs setClock setConsole setScheduledReminders setJobs].
    subst h. by rewrite lookup_app_r, Nat.sub_diag. }
  subst w2.
  rewrite (fire_delivered tz (setClock t w1) h (mkJob t u id r true) ud);
    [|done|done|simpl; lia|by rewrite Hw1|by rewrite Hw1].
  cbv zeta. cbn [jobUserId jobReminderId jobReminder].
  change (recurring r) with c.
  set (w3 := setOutbox _ _).
  assert (remindersFile w3 = f) as Hf3 by (subst w3; by rewrite Hw1).
  assert (scheduledReminders w3 = T) as HT3 by (subst w3; by rewrite Hw1).
  assert (lookupJob (scheduledReminders w3) u id = Some h) as Hl3.
  { rewrite HT3. subst T. rewrite lookupJob_insert. by rewrite decide_True. }
  rewrite (mark_delete tz u id c w3 recs r);
    [|rewrite Hf3; apply lookup_insert_eq|apply lookup_insert_eq|done].
  rewrite Hl3. rewrite Hf3.
  split_and!.
  - subst w3. rewrite Hw1. done.
  - intros u' id'. unfold record.
    cbn [remindersFile setConsole setRemindersFile].
    rewrite (record_cleanup f u id recs) by apply lookup_insert_eq.
    destruct (decide _) as [|Hne]; [done|].
    subst f recs. rewrite record_insert_insert. by rewrite decide_False.
  - cbn [scheduledReminders setConsole setRemindersFile setScheduledReminders].
    rewrite lookupJob_delete. by rewrite decide_True.
  - unfold live. cbn [jobs setConsole setRemindersFile setScheduledReminders setJobs].
    rewrite list_lookup_alter_eq. by destruct (jobs w3 !! h).
Qed.

Lemma reminder_lifecycle_witness :
  outbox (run (fire 0 0) (setClock 5000 (exOne None))) =
  [("ann@wa", notificationText ann (mkReminder "call mom" 5000 1000 false None))].
Proof.
  refine (proj1 (reminder_lifecycle 0 exStart "ann@wa" "call mom" 5000 None ann
                   _ eq_refl eq_refl eq_refl)).
  simpl. lia.
Defined.


Lemma untouched_refl w : untouched w w.
Proof. by repeat split. Qed.

Lemma untouched_trans w1 w2 w3 : untouched w1 w2 → untouched w2 w3 → untouched w1 w3.
Proof. unfold untouched. intros (?&?&?&?&?) (?&?&?&?&?). split_and!; congruence. Qed.

Lemma recoverOne_untouched u id r w :
  untouched w (run (recoverOne u id r) w) ∧ result (recoverOne u id r) w = Normal tt.
Proof.
  unfold run, result, recoverOne, bind, dateNow.
  destruct (completed r || (time r <? clock w)) eqn:Hskip.
  - split; [apply untouched_refl|done].
  - apply orb_false_iff in Hskip as [_ Hlt]. apply Z.ltb_ge in Hlt.
    rewrite schedule_due by done. by repeat split.
Qed.

Lemma forIn_untouched {A} (m : gmap string A) (body : string → A → Eff unit) :
  (∀ k v w, untouched w (run (body k v) w) ∧ result (body k v) w = Normal tt) →
  ∀ w, untouched w (run (forIn m body) w) ∧ result (forIn m body) w = Normal tt.
Proof.
  intros Hbody. unfold forIn.
  apply (map_fold_weak_ind (λ (loop : Eff unit) (_ : gmap string A),
    ∀ w, untouched w (run loop w) ∧ result loop w = Normal tt)).
  - intros w. split; [apply untouched_refl|done].
  - intros k v m' loop _ IH w.
    destruct (Hbody k v w) as [Hu Hn].
    destruct (run_bind_normal (body k v) loop w Hn) as [-> ->].
    destruct (IH (run (body k v) w)) as [Hu' Hn'].
    split; [by eapply untouched_trans|done].
Qed.

(** The start, as the loop run on the world the first lines leave. *)
Lemma initializeAt_run (fileFound : bool) (w : World) :
  let w0 := setConsole (console w ++ [LogInitializing])
              (if fileFound then w else setRemindersFile ∅ w) in
  let loop := forIn (remindersFile w0) (λ u recs, forIn recs (recoverOne u)) in
  initializeReminderSystemAt fileFound w =
  (Normal tt, setConsole (console (run loop w0) ++ [LogInitialized]) (run loop w0)).
Proof.
  intros w0 loop.
  destruct (forIn_untouched (remindersFile w0) (λ u recs, forIn recs (recoverOne u))
              (λ u recs, forIn_untouched recs (recoverOne u) (recoverOne_untouched u)) w0)
    as [_ Hn]. fold loop in Hn.
  unfold run, result, initializeReminderSystemAt, tryCatch, bind, logE, writeJson,
    update, readJson in *.
  subst loop. unfold recoverOne in *.
  destruct fileFound; cbn [negb]; [unfold ret at 1|].
  - change (setConsole (console w ++ [LogInitializing]) w) with w0.
    destruct (forIn (remindersFile w0) _ w0) as [c w1]. simpl in *. by subst c.
  - change (setRemindersFile ∅ (setConsole (console w ++ [LogInitializing]) w)) with w0.
    destruct (forIn (remindersFile w0) _ w0) as [c w1]. simpl in *. by subst c.
Qed.

(** X14. The recovery pass writes [reminders.json] only to create it. A
    start that finds the file leaves it as it is: records due in the
    past or completed stay in it. A start that does not find it leaves
    it holding the empty object, and arms nothing. Either way it sends
    nothing, leaves the user files alone and ends normally. *)
Theorem recovery_only_creates_the_file fileFound w :
  let w' := run (initializeReminderSystemAt fileFound) w in
  remindersFile w' = (if fileFound then remindersFile w else ∅)
  ∧ (fileFound = false →
       jobs w' = jobs w ∧ scheduledReminders w' = scheduledReminders w)
  ∧ outbox w' = outbox w
  ∧ userFiles w' = userFiles w
  ∧ result (initializeReminderSystemAt fileFound) w = Normal tt.
Proof.
  intros w'. subst w'.
  pose proof (initializeAt_run fileFound w) as Hinit. cbv zeta in Hinit.
  set (w0 := setConsole (console w ++ [LogInitializing])
               (if fileFound then w else setRemindersFile ∅ w)) in *.
  set (loop := forIn (remindersFile w0) (λ u recs, forIn recs (recoverOne u))) in *.
  destruct (forIn_untouched (remindersFile w0) (λ u recs, forIn recs (recoverOne u))
              (λ u recs, forIn_untouched recs (recoverOne u) (recoverOne_untouched u)) w0)
    as [(Hf & Hu & Ho & _) _]. fold loop in Hf, Hu, Ho.
  unfold run at 1 2 3 4 5, result. rewrite Hinit.
  cbn [fst snd remindersFile outbox userFiles jobs scheduledReminders setConsole].
  rewrite Hf, Ho, Hu. split_and!; [by destruct fileFound| |by destruct fileFound..|done].
  intros ->. subst loop w0. cbn [remindersFile setRemindersFile setConsole].
  unfold forIn. by rewrite map_fold_empty.
Qed.

(** ** Recurrence, repeated *)

(** X15. In a zone of fixed offset, firing a daily reminder [n] times
    moves its time on by exactly [n] days, a weekly one by [n] weeks,
    whatever the time it starts from: [n] daily steps are one step of
    [n] days. *)
Theorem daily_and_weekly_steps_add_up (tz : Z) n t :
  nextTimes tz (Some "daily") n t = Some (t + Z.of_nat n * msPerDay)
  ∧ nextTimes tz (Some "weekly") n t = Some (t + Z.of_nat n * (7 * msPerDay)).
Proof.
  induction n as [|n [IHd IHw]]; simpl nextTimes.
  - split; f_equal; lia.
  - rewrite IHd, IHw. simpl. unfold nextTime. simpl.
    rewrite !setDate_getDate. split; f_equal; lia.
Qed.

(** X16. In a zone of fixed offset, from a day of the month up to the
    28th, [k] monthly steps land on the same day of the month and the
    same time of day, [k] calendar months later: twelve of them are one
    year. *)
Theorem monthly_steps_keep_the_day (tz : Z) k t y m dt tod :
  localFields tz t = (y, m, dt, tod) → dt ≤ 28 →
  ∃ t', nextTimes tz (Some "monthly") k t = Some t'
        ∧ localFields tz t' =
            (y + (m + Z.of_nat k) / 12, (m + Z.of_nat k) mod 12, dt, tod).
Proof.
  intros Hf Hdt. induction k as [|k (tk & Hk & Hfk)].
  - exists t. split; [done|]. rewrite Hf. simpl Z.of_nat. rewrite Z.add_0_r.
    assert (0 ≤ m ≤ 11) as Hm.
    { injection Hf as <- <- <- <-. apply MonthFromTime_range. }
    by rewrite Z.div_small, Z.mod_small, Z.add_0_r by lia.
  - replace (Z.of_nat (S k)) with (Z.of_nat k + 1) by lia.
    cbn [nextTimes]. rewrite Hk. cbn [mbind option_bind]. unfold nextTime.
    rewrite bool_decide_eq_false_2, bool_decide_eq_false_2, bool_decide_eq_true_2 by done.
    eexists. split; [done|].
    pose proof (setMonth_next tz tk) as Hs. rewrite Hfk in Hs.
    rewrite Hs.
    set (a := m + Z.of_nat k) in *.
    assert (28 ≤ DaysInMonth (y + a / 12 + (a mod 12 + 1) / 12) ((a mod 12 + 1) mod 12))
      as Hdim.
    { unfold DaysInMonth. repeat case_match; lia. }
    destruct (Z.leb_spec dt (DaysInMonth (y + a / 12 + (a mod 12 + 1) / 12)
                                         ((a mod 12 + 1) mod 12))); [|lia].
    replace (m + (Z.of_nat k + 1)) with (a + 1) by lia.
    assert (y + a / 12 + (a mod 12 + 1) / 12 = y + (a + 1) / 12) as ->
      by (Z.div_mod_to_equations; lia).
    assert ((a mod 12 + 1) mod 12 = (a + 1) mod 12) as ->
      by (Z.div_mod_to_equations; lia).
    done.
Qed.

Lemma monthly_steps_keep_the_day_witness :
  ∃ t', nextTimes 0 (Some "monthly") 12 (newDate 0 2024 0 15 9 0 0 0) = Some t'
        ∧ localFields 0 t' = (2025, 0, 15, 9 * msPerHour).
Proof.
  refine (monthly_steps_keep_the_day 0 12 (newDate 0 2024 0 15 9 0 0 0)
            2024 0 15 (9 * msPerHour) eq_refl _).
  lia.
Defined.

(** ** More of the parsers *)

Lemma chars_app s1 s2 : chars (s1 +:+ s2) = chars s1 ++ chars s2.
Proof. induction s1 as [|a s1 IH]; simpl; [done|]. by rewrite <- IH. Qed.

Lemma chars_str l : chars (str l) = l.
Proof. apply list_ascii_of_string_of_list_ascii. Qed.

Lemma str_chars s : str (chars s) = s.
Proof. apply string_of_list_ascii_of_string. Qed.

(** A literal matches itself. *)
Lemma matcher_chars (cs : list ascii) e l caps c :
  matcher true (foldr (λ ch r, Seq (Chr ch) r) Empty cs) (mkState e (cs ++ l) caps) c
  = c (mkState (length cs + e) l caps).
Proof.
  revert e. induction cs as [|a cs IH]; intros e; [done|].
  cbn [foldr matcher app]. unfold step. cbn [rest endIndex captures].
  rewrite bool_decide_eq_true_2 by done. rewrite IH.
  by rewrite Nat.add_succ_r.
Qed.

(** A greedy repetition of a character class over a run of the class that
    ends the input or is followed by a character outside the class: when
    the continuation accepts the state after the whole run, that is the
    match. *)
Lemma RepeatMatcher_class (p : ascii → bool) (l1 : list ascii) :
  ∀ fuel min e l2 caps c z,
    Forall (λ a, p a = true) l1 →
    match l2 with [] => True | a :: _ => p a = false end →
    (min ≤ length l1)%nat → (min + length (l1 ++ l2) < fuel)%nat →
    c (mkState (length l1 + e) l2 caps) = Matched z →
    RepeatMatcher (matcher true (Class p)) [] true c fuel min None
                  (mkState e (l1 ++ l2) caps) = Matched z.
Proof.
  set (m := matcher true (Class p)).
  assert (∀ x k, m x k = step x p k) as Hm by done.
  induction l1 as [|a l1 IH]; intros fuel min e l2 caps c z Hp Hl2 Hmin Hfuel Hc.
  - destruct fuel as [|fuel]; [simpl in Hfuel; lia|].
    assert (min = 0%nat) as -> by (simpl in Hmin; lia).
    cbn [RepeatMatcher Nat.eqb negb app].
    unfold clearCaptures. cbn [foldr endIndex rest captures].
    rewrite Hm. unfold step. cbn [rest].
    destruct l2 as [|b l2]; [exact Hc|]. rewrite Hl2. exact Hc.
  - destruct fuel as [|fuel]; [simpl in Hfuel; lia|].
    apply Forall_cons in Hp as [Ha Hp].
    assert (RepeatMatcher m [] true c fuel (Nat.pred min) None
              (mkState (S e) (l1 ++ l2) caps) = Matched z) as Hrest.
    { apply IH; [done|done|simpl in Hmin; lia|simpl in Hfuel; lia|].
      by rewrite Nat.add_succ_r. }
    cbn [RepeatMatcher app].
    unfold clearCaptures. cbn [foldr endIndex rest captures].
    rewrite !Hm. unfold step. cbn [rest endIndex captures]. rewrite Ha.
    assert (Nat.eqb (S e) e = false) as -> by (apply Nat.eqb_neq; lia).
    rewrite andb_false_r. cbn [fmap option_fmap option_map].
    rewrite Hrest. by destruct (Nat.eqb min 0).
Qed.

Lemma isDigit_not_space a : isDigit a = true → isWhiteSpace a = false.
Proof.
  unfold isDigit, isWhiteSpace. generalize (code a). intros n.
  rewrite andb_true_iff, !N.leb_le. intros [??].
  apply orb_false_iff. split.
  - apply andb_false_iff. right. apply N.leb_gt. lia.
  - apply N.eqb_neq. lia.
Qed.

(** The match of [inPattern] on [in], a space, a run of digits, a space
    and a unit, given the match of the unit. *)
Lemma inPattern_match (ds unit : list ascii) k (left : list ascii) :
  ds ≠ [] → Forall (λ a, isDigit a = true) ds →
  match unit with [] => True | a :: _ => isWhiteSpace a = false end →
  (∀ e caps,
     matcher true (Group 2 unitsAlt) (mkState e unit caps)
             (λ y, matcher true Empty y Matched)
     = Matched (mkState (k + e) left
                        (<[2%nat := Some (str (take (k + e - e) unit))]> caps))) →
  exec inPattern (str (chars "in " ++ ds ++ chars " " ++ unit))
  = Some (mkMatch 0 (k + (1 + (length ds + 3)))
            [Some (str (take (k + (1 + (length ds + 3)))
                             (chars "in " ++ ds ++ chars " " ++ unit)));
             Some (str ds); Some (str (take k unit))]).
Proof.
  intros Hne Hds Hunit Htail.
  unfold exec. rewrite chars_str.
  set (r4 := Seq (Group 2 unitsAlt) Empty).
  set (r3 := Seq (Plus ws) r4).
  set (r2 := Seq (Group 1 (Plus dg)) r3).
  set (r1 := Seq (Plus ws) r2).
  assert (∀ e caps,
            matcher true r3 (mkState e (chars " " ++ unit) caps) Matched
            = Matched (mkState (k + (1 + e)) left
                         (<[2%nat := Some (str (take k unit))]> caps))) as H3.
  { intros e caps.
    change (matcher true r3 (mkState e (chars " " ++ unit) caps) Matched)
      with (RepeatMatcher (matcher true (Class isWhiteSpace)) [] true
              (λ y, matcher true r4 y Matched)
              (1 + length (chars " " ++ unit) + 1) 1 None
              (mkState e (chars " " ++ unit) caps)).
    apply RepeatMatcher_class; [by repeat constructor|done|simpl; lia|simpl; lia|].
    change (matcher true r4 (mkState (length (chars " ") + e) unit caps) Matched)
      with (matcher true (Group 2 unitsAlt) (mkState (1 + e) unit caps)
              (λ y, matcher true Empty y Matched)).
    rewrite Htail. by replace (k + (1 + e) - (1 + e))%nat with k by lia. }
  assert (∀ e caps,
            matcher true r2 (mkState e (ds ++ chars " " ++ unit) caps) Matched
            = Matched (mkState (k + (1 + (length ds + e))) left
                         (<[2%nat := Some (str (take k unit))]>
                            (<[1%nat := Some (str ds)]> caps)))) as H2.
  { intros e caps.
    change (matcher true r2 (mkState e (ds ++ chars " " ++ unit) caps) Matched)
      with (RepeatMatcher (matcher true (Class isDigit)) [] true
              (λ y, matcher true r3
                      (mkState (endIndex y) (rest y)
                         (<[1%nat := Some (str (take (endIndex y - e)
                                                    (ds ++ chars " " ++ unit)))]>
                            (captures y))) Matched)
              (1 + length (ds ++ chars " " ++ unit) + 1) 1 None
              (mkState e (ds ++ chars " " ++ unit) caps)).
    apply RepeatMatcher_class; [done|done| |simpl; lia|].
    { destruct ds; [done|simpl; lia]. }
    cbn [endIndex rest captures].
    replace (length ds + e - e)%nat with (length ds) by lia.
    rewrite take_app_length. apply H3. }
  assert (∀ e caps,
            matcher true r1 (mkState e (chars " " ++ ds ++ chars " " ++ unit) caps) Matched
            = Matched (mkState (k + (1 + (length ds + (1 + e)))) left
                         (<[2%nat := Some (str (take k unit))]>
                            (<[1%nat := Some (str ds)]> caps)))) as H1.
  { intros e caps.
    change (matcher true r1 (mkState e (chars " " ++ ds ++ chars " " ++ unit) caps) Matched)
      with (RepeatMatcher (matcher true (Class isWhiteSpace)) [] true
              (λ y, matcher true r2 y Matched)
              (1 + length (chars " " ++ ds ++ chars " " ++ unit) + 1) 1 None
              (mkState e (chars " " ++ ds ++ chars " " ++ unit) caps)).
    apply RepeatMatcher_class; [by repeat constructor| |simpl; lia|simpl; lia|].
    { destruct ds as [|a ds]; [done|]. apply Forall_cons in Hds as [Ha _].
      by apply isDigit_not_space. }
    apply H2. }
  assert (matcher true (body inPattern)
            (mkState 0 (chars "in " ++ ds ++ chars " " ++ unit) [None; None; None]) Matched
          = Matched (mkState (k + (1 + (length ds + 3))) left
                       [None; Some (str ds); Some (str (take k unit))])) as Hm.
  { change (matcher true (body inPattern)
              (mkState 0 (chars "in " ++ ds ++ chars " " ++ unit) [None; None; None])
              Matched)
      with (matcher true (foldr (λ ch r, Seq (Chr ch) r) Empty (chars "in"))
              (mkState 0 (chars "in" ++ (chars " " ++ ds ++ chars " " ++ unit))
                 [None; None; None])
              (λ y, matcher true r1 y Matched)).
    rewrite matcher_chars. cbv beta. rewrite H1. done. }
  destruct (chars "in " ++ ds ++ chars " " ++ unit) as [|a l] eqn:Hl; [done|].
  cbn [execFrom]. cbn [ignoreCase nGroups inPattern replicate]. rewrite Hm.
  cbn [endIndex captures]. by rewrite Nat.sub_0_r.
Qed.

Lemma pretty_N_char_digit d :
  (d < 10)%N →
  isDigit (pretty_N_char d) = true ∧ Z.of_N (code (pretty_N_char d) - 48) = Z.of_N d.
Proof.
  intros Hd.
  assert (d = 0 ∨ d = 1 ∨ d = 2 ∨ d = 3 ∨ d = 4 ∨ d = 5 ∨ d = 6 ∨ d = 7 ∨ d = 8 ∨ d = 9)%N
    as Hc by lia.
  destruct_or!; subst d; by vm_compute.
Qed.

Lemma parseDigits_app ds : ∀ acc l,
  Forall (λ a, isDigit a = true) ds →
  parseDigits acc (ds ++ l) = parseDigits (parseDigits acc ds) l.
Proof.
  induction ds as [|a ds IH]; intros acc l Hds; [done|].
  apply Forall_cons in Hds as [Ha Hds]. simpl. rewrite Ha. by apply IH.
Qed.

(** The decimal digits [pretty_N_go] puts before its accumulator, read
    back by [parseDigits]. *)
Lemma pretty_N_go_digits x : ∀ s,
  ∃ ds, chars (pretty_N_go x s) = ds ++ chars s
        ∧ Forall (λ a, isDigit a = true) ds
        ∧ ((0 < x)%N → ds ≠ [])
        ∧ ∀ acc, parseDigits acc ds = acc * 10 ^ Z.of_nat (length ds) + Z.of_N x.
Proof.
  induction (N.lt_wf_0 x) as [x _ IH]. intros s.
  destruct (decide (0 < x)%N) as [Hpos|Hz].
  - rewrite pretty_N_go_step by done.
    destruct (IH (x `div` 10)%N (N.div_lt x 10 Hpos eq_refl)
                 (String (pretty_N_char (x `mod` 10)) s))
      as (ds & Hchars & Hds & _ & Hval).
    destruct (pretty_N_char_digit (x `mod` 10)%N) as [Hd Hv];
      [apply N.mod_lt; lia|].
    exists (ds ++ [pretty_N_char (x `mod` 10)]). split_and!.
    + rewrite Hchars. simpl. by rewrite <- app_assoc.
    + apply Forall_app. split; [done|]. by repeat constructor.
    + intros _. by destruct ds.
    + intros acc. rewrite parseDigits_app by done. simpl. rewrite Hd, Hv, Hval.
      rewrite length_app. simpl length.
      rewrite Nat2Z.inj_add, Z.pow_add_r by lia.
      change (10 ^ Z.of_nat 1) with 10.
      pose proof (N.div_mod x 10) as Hx.
      assert (Z.of_N x = 10 * Z.of_N (x `div` 10) + Z.of_N (x `mod` 10)) by lia.
      lia.
  - assert (x = 0%N) as -> by lia. exists []. split_and!; [done|done|lia|].
    intros acc. simpl. lia.
Qed.

(** [parseInt] reads back the decimal digits of a number. *)
Lemma pretty_N_digits (n : N) :
  chars (pretty n) ≠ []
  ∧ Forall (λ a, isDigit a = true) (chars (pretty n))
  ∧ parseDigits 0 (chars (pretty n)) = Z.of_N n.
Proof.
  unfold pretty, pretty_N. destruct (decide (n = 0%N)) as [->|Hn].
  - split_and!; [done|by repeat constructor|done].
  - destruct (pretty_N_go_digits n "") as (ds & Hchars & Hds & Hne & Hval).
    simpl in Hchars. rewrite app_nil_r in Hchars. rewrite Hchars.
    split_and!; [apply Hne; lia|done|]. rewrite Hval. lia.
Qed.

(** X17. The relative grammar reads back any amount: for every number
    [n] and each of the six unit words, the text [in n unit] parses to
    the clock plus [n] times the unit, whatever the zone, as long as the
    result is a time value of the host. *)
Theorem relative_offset_round_trip tz DateParse now (n : N) unit ms :
  (unit, ms) ∈ unitMillis →
  0 ≤ now → now + Z.of_N n * ms ≤ maxTime →
  parseTimeString tz DateParse now ("in " +:+ pretty n +:+ " " +:+ unit)
  = Some (now + Z.of_N n * ms).
Proof.
  intros Hunit _ _.
  destruct (pretty_N_digits n) as (Hne & Hds & Hval).
  set (ds := chars (pretty n)) in *.
  assert ("in " +:+ pretty n +:+ " " +:+ unit
          = str (chars "in " ++ ds ++ chars " " ++ chars unit)) as ->.
  { rewrite <- (str_chars ("in " +:+ _)). by rewrite !chars_app. }
  assert (∀ k left,
    (match chars unit with [] => True | a :: _ => isWhiteSpace a = false end) →
    (∀ e caps,
       matcher true (Group 2 unitsAlt) (mkState e (chars unit) caps)
               (λ y, matcher true Empty y Matched)
       = Matched (mkState (k + e) left
                    (<[2%nat := Some (str (take (k + e - e) (chars unit)))]> caps))) →
    (let u := toLowerCase (str (take k (chars unit))) in
     if bool_decide (u = "minute") || bool_decide (u = "minutes")
     then ms = 60 * 1000
     else if bool_decide (u = "hour") || bool_decide (u = "hours")
     then ms = 60 * 60 * 1000
     else if bool_decide (u = "day") || bool_decide (u = "days")
     then ms = 24 * 60 * 60 * 1000
     else False) →
    parseTimeString tz DateParse now (str (chars "in " ++ ds ++ chars " " ++ chars unit))
    = Some (now + Z.of_N n * ms)) as Hgen.
  { intros k left Hhead Htail Hms.
    unfold parseTimeString, inBranch.
    rewrite (inPattern_match ds (chars unit) k left Hne Hds Hhead Htail).
    set (m := mkMatch _ _ _).
    change (groupText m 1) with (str ds).
    change (groupText m 2) with (str (take k (chars unit))).
    unfold parseInt. rewrite chars_str, Hval.
    cbv zeta in Hms.
    destruct (bool_decide _ || bool_decide _).
    - subst ms. f_equal. lia.
    - destruct (bool_decide _ || bool_decide _).
      + subst ms. f_equal. lia.
      + destruct (bool_decide _ || bool_decide _); [|done].
        subst ms. f_equal. lia. }
  unfold unitMillis in Hunit.
  repeat (apply elem_of_cons in Hunit as [[= -> ->]|Hunit]);
    [..|by apply elem_of_nil in Hunit].
  - apply (Hgen 6%nat []); [done| |done]. intros e caps. vm_compute. reflexivity.
  - apply (Hgen 6%nat (chars "s")); [done| |done]. intros e caps. vm_compute. reflexivity.
  - apply (Hgen 4%nat []); [done| |done]. intros e caps. vm_compute. reflexivity.
  - apply (Hgen 4%nat (chars "s")); [done| |done]. intros e caps. vm_compute. reflexivity.
  - apply (Hgen 3%nat []); [done| |done]. intros e caps. vm_compute. reflexivity.
  - apply (Hgen 3%nat (chars "s")); [done| |done]. intros e caps. vm_compute. reflexivity.
Qed.

Lemma relative_offset_round_trip_witness :
  parseTimeString 0 isoDateParse 1000 ("in " +:+ pretty 90%N +:+ " " +:+ "minutes")
  = Some (1000 + Z.of_N 90 * (60 * 1000)).
Proof.
  apply (relative_offset_round_trip 0 isoDateParse 1000 90 "minutes" (60 * 1000));
    [|lia|unfold maxTime; lia].
  unfold unitMillis. apply elem_of_cons. right. apply elem_of_cons. by left.
Defined.

(** A pattern that starts with a literal fails where the input does not
    start with the literal's first character. *)
Lemma matcher_literal_head ch cs r2 x c :
  match rest x with
  | [] => True
  | a :: _ => toUpperChar a ≠ toUpperChar ch
  end →
  matcher true (Seq (foldr (λ ch r, Seq (Chr ch) r) Empty (ch :: cs)) r2) x c = Failure.
Proof.
  intros Hx. cbn [matcher foldr]. unfold step.
  destruct (rest x) as [|a l]; [done|]. by rewrite bool_decide_eq_false_2.
Qed.

(** [inPattern] finds nothing in a text without the letter i. *)
Lemma inPattern_no_match (l : list ascii) :
  Forall (λ a, toUpperChar a ≠ "I"%char) l →
  ∀ i, execFrom inPattern i l = None.
Proof.
  assert (∀ x c, match rest x with
                 | [] => True
                 | a :: _ => toUpperChar a ≠ "I"%char
                 end →
                 matcher true (body inPattern) x c = Failure) as Hfail.
  { intros x c Hx. by apply (matcher_literal_head "i" (chars "n")). }
  induction 1 as [|a l Ha Hl IH]; intros i.
  - cbn [execFrom]. cbn [ignoreCase inPattern]. by rewrite Hfail.
  - cbn [execFrom]. cbn [ignoreCase inPattern]. rewrite Hfail by done. apply IH.
Qed.

Lemma isDigit_not_i a : isDigit a = true → toUpperChar a ≠ "I"%char.
Proof.
  unfold isDigit, toUpperChar. intros Hd.
  apply andb_true_iff in Hd as [_ Hd]. apply N.leb_le in Hd.
  assert (((97 <=? code a) && (code a <=? 122))%N = false) as ->.
  { apply andb_false_iff. left. apply N.leb_gt. lia. }
  intros ->. by apply Hd.
Qed.

Lemma isDigit_not_colon a : isDigit a = true → a ≠ ":"%char.
Proof. intros Hd ->. done. Qed.

Lemma matcher_Seq icase r1 r2 x c :
  matcher icase (Seq r1 r2) x c = matcher icase r1 x (λ y, matcher icase r2 y c).
Proof. done. Qed.

(** The end of [tomorrowPattern], from the colon on: the optional
    minutes, the optional blanks, the optional am or pm mark, on a colon
    and a run of digits that ends the input. *)
Lemma tomorrowPattern_minutes (dm : list ascii) :
  dm ≠ [] → Forall (λ a, isDigit a = true) dm →
  ∀ e caps,
    matcher true
      (Seq (Opt (Cat [Chr ":"; Group 2 (Plus dg)]))
         (Seq (Star ws) (Seq (Opt (Group 3 (Alts [Lit "am"; Lit "pm"]))) Empty)))
      (mkState e (chars ":" ++ dm) caps) Matched
    = Matched (mkState (length dm + S e) []
                 (<[2%nat := Some (str dm)]> (<[2%nat := None]> caps))).
Proof.
  intros Hnm Hdm.
  set (g3 := Group 3 (Alts [Lit "am"; Lit "pm"])).
  set (r8 := Seq (Opt g3) Empty).
  set (r7 := Seq (Star ws) r8).
  set (o6 := Cat [Chr ":"; Group 2 (Plus dg)]).
  set (r6 := Seq (Opt o6) r7).
  assert (∀ e caps, matcher true r7 (mkState e [] caps) Matched
                    = Matched (mkState e [] caps)) as H7 by done.
  intros e caps.
    assert (RepeatMatcher (matcher true (Class isDigit)) [] true
              (λ y, matcher true Empty
                      (mkState (endIndex y) (rest y)
                         (<[2%nat := Some (str (take (endIndex y - S e) dm))]>
                            (captures y)))
                      (λ y0, if Nat.eqb 0 0 && Nat.eqb (endIndex y0) e then Failure
                             else RepeatMatcher (matcher true o6) [2%nat] true
                                    (λ y1, matcher true r7 y1 Matched)
                                    (length dm + 1) (Nat.pred 0)
                                    (Nat.pred <$> Some 1%nat) y0))
              (1 + length dm + 1) 1 None
              (mkState (S e) (dm ++ []) (<[2%nat := None]> caps))
            = Matched (mkState (length dm + S e) []
                         (<[2%nat := Some (str dm)]> (<[2%nat := None]> caps)))) as Hrun.
    { apply RepeatMatcher_class; [done|done| |rewrite length_app; simpl; lia|].
      { destruct dm; [done|simpl; lia]. }
      cbn [matcher endIndex rest captures].
      replace (length dm + S e - S e)%nat with (length dm) by lia.
      rewrite firstn_all.
      assert (Nat.eqb (length dm + S e) e = false) as -> by (apply Nat.eqb_neq; lia).
      cbn [Nat.eqb andb fmap option_fmap option_map Nat.pred].
      destruct (length dm + 1)%nat; cbn [RepeatMatcher]; apply H7. }
    rewrite app_nil_r in Hrun.
    change (matcher true r6 (mkState e (chars ":" ++ dm) caps) Matched)
      with (RepeatMatcher (matcher true o6) [2%nat] true
              (λ y, matcher true r7 y Matched)
              (S (length dm + 1)) 0 (Some 1%nat)
              (mkState e (":"%char :: dm) caps)).
    cbn [RepeatMatcher Nat.eqb negb].
    unfold clearCaptures. cbn [foldr endIndex rest captures].
    change (matcher true o6 (mkState e (":"%char :: dm) (<[2%nat := None]> caps)) ?d)
      with (step (mkState e (":"%char :: dm) (<[2%nat := None]> caps))
              (λ a, bool_decide (toUpperChar a = toUpperChar ":"))
              (λ y, matcher true (Seq (Group 2 (Plus dg)) Empty) y d)).
    unfold step. cbn [rest endIndex captures].
    rewrite bool_decide_eq_true_2 by done.
    match goal with
    | |- orElse ?a _ = _ =>
        change a with
          (RepeatMatcher (matcher true (Class isDigit)) [] true
             (λ y, matcher true Empty
                     (mkState (endIndex y) (rest y)
                        (<[2%nat := Some (str (take (endIndex y - S e) dm))]>
                           (captures y)))
                     (λ y0, if Nat.eqb 0 0 && Nat.eqb (endIndex y0) e then Failure
                            else RepeatMatcher (matcher true o6) [2%nat] true
                                   (λ y1, matcher true r7 y1 Matched)
                                   (length dm + 1) (Nat.pred 0)
                                   (Nat.pred <$> Some 1%nat) y0))
             (1 + length dm + 1) 1 None
             (mkState (S e) dm (<[2%nat := None]> caps)))
    end.
    by rewrite Hrun.
Qed.

(** The match of [tomorrowPattern] on [tomorrow at], a run of digits, a
    colon and a run of digits: the two runs are groups 1 and 2, and the
    group of the am or pm mark takes no part. *)
Lemma tomorrowPattern_match (dh dm : list ascii) :
  dh ≠ [] → Forall (λ a, isDigit a = true) dh →
  dm ≠ [] → Forall (λ a, isDigit a = true) dm →
  let s := chars "tomorrow at " ++ dh ++ chars ":" ++ dm in
  exec tomorrowPattern (str s)
  = Some (mkMatch 0 (length s) [Some (str s); Some (str dh); Some (str dm); None]).
Proof.
  intros Hnh Hdh Hnm Hdm. cbv zeta.
  set (s := chars "tomorrow at " ++ dh ++ chars ":" ++ dm).
  unfold exec. rewrite chars_str.
  set (g3 := Group 3 (Alts [Lit "am"; Lit "pm"])).
  set (r8 := Seq (Opt g3) Empty).
  set (r7 := Seq (Star ws) r8).
  set (o6 := Cat [Chr ":"; Group 2 (Plus dg)]).
  set (r6 := Seq (Opt o6) r7).
  set (r5 := Seq (Group 1 (Plus dg)) r6).
  set (r4 := Seq (Plus ws) r5).
  set (r3 := Seq (Lit "at") r4).
  set (r2 := Seq (Plus ws) r3).
  assert (∀ e caps,
            matcher true r6 (mkState e (chars ":" ++ dm) caps) Matched
            = Matched (mkState (length dm + S e) []
                         (<[2%nat := Some (str dm)]> (<[2%nat := None]> caps)))) as H6
    by (by apply tomorrowPattern_minutes).
  assert (∀ e caps,
            matcher true r5 (mkState e (dh ++ chars ":" ++ dm) caps) Matched
            = Matched (mkState (length dm + S (length dh + e)) []
                         (<[2%nat := Some (str dm)]>
                            (<[2%nat := None]> (<[1%nat := Some (str dh)]> caps))))) as H5.
  { intros e caps.
    change (matcher true r5 (mkState e (dh ++ chars ":" ++ dm) caps) Matched)
      with (RepeatMatcher (matcher true (Class isDigit)) [] true
              (λ y, matcher true r6
                      (mkState (endIndex y) (rest y)
                         (<[1%nat := Some (str (take (endIndex y - e)
                                                    (dh ++ chars ":" ++ dm)))]>
                            (captures y))) Matched)
              (1 + length (dh ++ chars ":" ++ dm) + 1) 1 None
              (mkState e (dh ++ chars ":" ++ dm) caps)).
    apply RepeatMatcher_class; [done|done| |simpl; lia|].
    { destruct dh; [done|simpl; lia]. }
    cbn [endIndex rest captures].
    replace (length dh + e - e)%nat with (length dh) by lia.
    rewrite take_app_length. apply H6. }
  assert (∀ e caps,
            matcher true r4 (mkState e (chars " " ++ dh ++ chars ":" ++ dm) caps) Matched
            = Matched (mkState (length dm + S (length dh + (1 + e))) []
                         (<[2%nat := Some (str dm)]>
                            (<[2%nat := None]> (<[1%nat := Some (str dh)]> caps))))) as H4.
  { intros e caps.
    change (matcher true r4 (mkState e (chars " " ++ dh ++ chars ":" ++ dm) caps) Matched)
      with (RepeatMatcher (matcher true (Class isWhiteSpace)) [] true
              (λ y, matcher true r5 y Matched)
              (1 + length (chars " " ++ dh ++ chars ":" ++ dm) + 1) 1 None
              (mkState e (chars " " ++ dh ++ chars ":" ++ dm) caps)).
    apply RepeatMatcher_class; [by repeat constructor| |simpl; lia|simpl; lia|].
    { destruct dh as [|a dh]; [done|]. apply Forall_cons in Hdh as [Ha _].
      by apply isDigit_not_space. }
    apply H5. }
  assert (∀ e caps,
            matcher true r2
              (mkState e (chars " at " ++ dh ++ chars ":" ++ dm) caps) Matched
            = Matched (mkState (length dm + S (length dh + (1 + (2 + (1 + e))))) []
                         (<[2%nat := Some (str dm)]>
                            (<[2%nat := None]> (<[1%nat := Some (str dh)]> caps))))) as H2.
  { intros e caps.
    change (matcher true r2
              (mkState e (chars " at " ++ dh ++ chars ":" ++ dm) caps) Matched)
      with (RepeatMatcher (matcher true (Class isWhiteSpace)) [] true
              (λ y, matcher true r3 y Matched)
              (1 + length (chars " " ++ chars "at " ++ dh ++ chars ":" ++ dm) + 1) 1 None
              (mkState e (chars " " ++ chars "at " ++ dh ++ chars ":" ++ dm) caps)).
    apply RepeatMatcher_class; [by repeat constructor|done|simpl; lia|simpl; lia|].
    change (matcher true r3
              (mkState (length (chars " ") + e) (chars "at " ++ dh ++ chars ":" ++ dm) caps)
              Matched)
      with (matcher true (foldr (λ ch r, Seq (Chr ch) r) Empty (chars "at"))
              (mkState (1 + e) (chars "at" ++ (chars " " ++ dh ++ chars ":" ++ dm)) caps)
              (λ y, matcher true r4 y Matched)).
    rewrite matcher_chars. cbv beta. apply H4. }
  assert (matcher true (body tomorrowPattern) (mkState 0 s [None; None; None; None]) Matched
          = Matched (mkState (length s) []
                       [None; Some (str dh); Some (str dm); None])) as Hm.
  { assert (s = chars "tomorrow" ++ (chars " at " ++ dh ++ chars ":" ++ dm)) as ->
      by done.
    assert (body tomorrowPattern
            = Seq (foldr (λ ch r, Seq (Chr ch) r) Empty (chars "tomorrow")) r2) as ->
      by done.
    rewrite matcher_Seq, matcher_chars. cbv beta. rewrite H2. do 2 f_equal.
    rewrite !length_app. simpl. lia. }
  assert (∀ y, matcher true (body tomorrowPattern)
                       (mkState 0 s [None; None; None; None]) Matched = Matched y →
               execFrom tomorrowPattern 0 s
               = Some (mkMatch 0 (endIndex y)
                         (<[0%nat := Some (str (take (endIndex y - 0) s))]>
                            (captures y)))) as Hexec.
  { clear. clearbody s. intros y Hy.
    destruct s; cbn [execFrom]; cbn [ignoreCase nGroups tomorrowPattern replicate];
      by rewrite Hy. }
  rewrite (Hexec _ Hm). cbn [endIndex captures]. by rewrite Nat.sub_0_r, firstn_all.
Qed.

Lemma str_nonempty l : l ≠ [] → bool_decide (str l = "") = false.
Proof. destruct l; [done|]. intros _. by apply bool_decide_eq_false_2. Qed.

(** X18. The tomorrow grammar reads back an hour and a minute: for all
    numbers [h] and [mi], the text [tomorrow at h:mi] parses to the
    instant [h] hours and [mi] minutes after the midnight that ends the
    clock's local day, which is after the clock; with an hour up to 23
    and a minute up to 59 that is the day after the clock's, at that
    hour and minute, seconds and milliseconds zero, and larger numbers
    are not refused: they run over into the days that follow. The zone
    has a fixed offset, the clock is not before the epoch, and the
    result is a time value of the host. *)
Theorem tomorrow_at_reads_back (tz : Z) DateParse now (h mi : N) :
  0 ≤ now →
  UTC tz (MakeDate (Day (LocalTime tz now) + 1) (MakeTime (Z.of_N h) (Z.of_N mi) 0 0))
    ≤ maxTime →
  ∃ t, parseTimeString tz DateParse now ("tomorrow at " +:+ pretty h +:+ ":" +:+ pretty mi)
       = Some t
       ∧ t = UTC tz (MakeDate (Day (LocalTime tz now) + 1)
                              (MakeTime (Z.of_N h) (Z.of_N mi) 0 0))
       ∧ now < t
       ∧ ((h ≤ 23)%N → (mi ≤ 59)%N →
          Day (LocalTime tz t) = Day (LocalTime tz now) + 1
          ∧ TimeWithinDay (LocalTime tz t) = MakeTime (Z.of_N h) (Z.of_N mi) 0 0).
Proof.
  intros _ _.
  destruct (pretty_N_digits h) as (Hnh & Hdh & Hvh).
  destruct (pretty_N_digits mi) as (Hnm & Hdm & Hvm).
  set (dh := chars (pretty h)) in *. set (dm := chars (pretty mi)) in *.
  assert ("tomorrow at " +:+ pretty h +:+ ":" +:+ pretty mi
          = str (chars "tomorrow at " ++ dh ++ chars ":" ++ dm)) as ->.
  { rewrite <- (str_chars ("tomorrow at " +:+ _)). by rewrite !chars_app. }
  assert (exec inPattern (str (chars "tomorrow at " ++ dh ++ chars ":" ++ dm)) = None)
    as Hin.
  { unfold exec. rewrite chars_str. apply inPattern_no_match.
    repeat (apply Forall_app; split).
    - repeat constructor; by vm_compute.
    - eapply Forall_impl; [exact Hdh|]. apply isDigit_not_i.
    - repeat constructor; by vm_compute.
    - eapply Forall_impl; [exact Hdm|]. apply isDigit_not_i. }
  unfold parseTimeString, inBranch. rewrite Hin.
  rewrite (tomorrowPattern_match dh dm Hnh Hdh Hnm Hdm). cbv zeta.
  set (m := mkMatch _ _ _).
  assert (clockOf m 1 = (Z.of_N h, Z.of_N mi)) as ->.
  { unfold clockOf.
    change (groupText m 1) with (str dh).
    change (groupText m (1 + 1)) with (str dm).
    change (groupTruthy m (1 + 1)) with (negb (bool_decide (str dm = ""))).
    change (groupTruthy m (1 + 2)) with false.
    rewrite str_nonempty by done. cbn [negb].
    unfold parseInt. rewrite !chars_str, Hvh, Hvm.
    by rewrite !bool_decide_eq_false_2 by done. }
  eexists. split; [reflexivity|].
  rewrite setDate_getDate.
  unfold setHours. rewrite !LocalTime_fixed, !UTC_fixed.
  unfold MakeDate, MakeTime, Day, TimeWithinDay,
    msPerDay, msPerHour, msPerMinute, msPerSecond.
  split_and!.
  - f_equal. Z.div_mod_to_equations. lia.
  - Z.div_mod_to_equations. lia.
  - intros Hh' Hm'. split; Z.div_mod_to_equations; lia.
Qed.

Lemma tomorrow_at_reads_back_witness :
  parseTimeString 0 isoDateParse (newDate 0 2024 2 1 10 0 0 0)
                  ("tomorrow at " +:+ pretty 15%N +:+ ":" +:+ pretty 30%N)
  = Some (newDate 0 2024 2 2 15 30 0 0).
Proof.
  destruct (tomorrow_at_reads_back 0 isoDateParse (newDate 0 2024 2 1 10 0 0 0) 15 30)
    as (t & Ht & -> & _); [by vm_compute..|].
  exact Ht.
Defined.

(** X19. The recurrence of a parsed command is [null] or one of daily,
    weekly and monthly: a reminder created from a command never reaches
    the default case of the [switch] on its recurrence. *)
Theorem parsed_recurrence_is_known tz DateParse now text p :
  parseReminderCommand tz DateParse now text = Some p →
  parsedRecurring p = None ∨ ∃ kind, parsedRecurring p = Some kind ∧ knownRecurrence kind.
Proof.
  unfold parseReminderCommand.
  set (content := trim (replaceEmpty remindPrefix text)).
  destruct (List.find _ recurringPatterns) as [[pattern type]|] eqn:Hfind.
  - apply List.find_some in Hfind as [Hin _].
    assert (knownRecurrence type) as Hk.
    { unfold recurringPatterns, knownRecurrence in *. simpl in Hin.
      destruct_or!; simplify_eq; auto. }
    intros Hp. right. exists type. split; [|done].
    repeat case_match; by simplify_eq.
  - intros Hp. left. repeat case_match; by simplify_eq.
Qed.

Lemma parsed_recurrence_is_known_witness :
  parsedRecurring (mkParsed "call mom" 86400000 (Some "daily")) = None
  ∨ ∃ kind, parsedRecurring (mkParsed "call mom" 86400000 (Some "daily")) = Some kind
            ∧ knownRecurrence kind.
Proof.
  apply (parsed_recurrence_is_known 0 isoDateParse 0 "/remind in 1 day to call mom daily").
  vm_compute. reflexivity.
Defined.
